(** * MurmurAI Sublime Text plugin: a shallow embedding of
      integrations/sublime/MurmurAI.py and the properties of its commands.

    The plugin is glue between three parties: the editor host (windows,
    output panels, the status bar, the queue of callbacks of the UI
    thread), one background thread per invocation, and the external
    executable [mur].  The embedding keeps that shape:

    - [Py]    : the few Python string functions the plugin calls;
    - [Host]  : the part of the Sublime API the plugin calls, as explicit
                state passing over a [UI] record;
    - [Plugin]: the plugin's own functions.  The nested function [run] is
                the program of the background thread; the lambdas it hands
                to [sublime.set_timeout] are closures over its local
                variables and are called later by the UI thread.  The two
                threads of one invocation run under an arbitrary schedule.

    What is taken from the host and from Python rather than from the
    plugin: callbacks queued with the same delay are called in the order
    they were queued; the calls of the Sublime API do not raise; what
    [subprocess.run] does is given from outside, as an [Outcome]; one
    invocation runs at a time. *)

From Stdlib Require Import ZArith Ascii String.
From stdpp Require Import base strings gmap list.

Local Open Scope Z_scope.
Local Open Scope stdpp_scope.

(** ** Python strings *)

Module Py.

(** A [str] is modelled by a [string] whose characters are the code points
    below 256. *)

Definition nl : string := String "010"%char "".
Definition slash : ascii := "/"%char.

(** [str.isspace] on one character: the code points below 256 that Python
    classes as whitespace. *)
Definition isspace (c : ascii) : bool :=
  let n := nat_of_ascii c in
  ((9 <=? n)%nat && (n <=? 13)%nat) || ((28 <=? n)%nat && (n <=? 32)%nat)
  || (n =? 133)%nat || (n =? 160)%nat.

Fixpoint lstrip (s : string) : string :=
  match s with
  | "" => ""
  | String c s' => if isspace c then lstrip s' else s
  end.

Fixpoint rstrip (s : string) : string :=
  match s with
  | "" => ""
  | String c s' =>
      match rstrip s' with
      | "" => if isspace c then "" else String c ""
      | r => String c r
      end
  end.

(** [s.strip()] *)
Definition strip (s : string) : string := rstrip (lstrip s).

(** [bool(s)]: a string is true when it is not empty. *)
Definition truthy (s : string) : bool :=
  match s with "" => false | _ => true end.

(** [sep.join(l)] *)
Fixpoint join (sep : string) (l : list string) : string :=
  match l with
  | [] => ""
  | [x] => x
  | x :: l' => x +:+ sep +:+ join sep l'
  end.

(** [sub in s] *)
Fixpoint contains (sub s : string) : bool :=
  String.prefix sub s ||
  match s with
  | "" => false
  | String _ s' => contains sub s'
  end.

(** [s] has a character that is not whitespace. *)
Definition has_nonspace (s : string) : bool :=
  existsb (fun c => negb (isspace c)) (String.list_ascii_of_string s).

(** *** [os.path.dirname], POSIX flavour

    [i = p.rfind('/') + 1; head = p[:i];
     if head and head != '/' * len(head): head = head.rstrip('/')] *)

Fixpoint has_sep (s : string) : bool :=
  match s with
  | "" => false
  | String c s' => Ascii.eqb c slash || has_sep s'
  end.

(** [p[:p.rfind('/') + 1]] *)
Fixpoint upto_last_sep (p : string) : string :=
  match p with
  | "" => ""
  | String c p' =>
      if has_sep p' then String c (upto_last_sep p')
      else if Ascii.eqb c slash then String c "" else ""
  end.

Fixpoint all_sep (s : string) : bool :=
  match s with
  | "" => true
  | String c s' => Ascii.eqb c slash && all_sep s'
  end.

(** [head.rstrip('/')] *)
Fixpoint rstrip_sep (s : string) : string :=
  match s with
  | "" => ""
  | String c s' =>
      match rstrip_sep s' with
      | "" => if Ascii.eqb c slash then "" else String c ""
      | r => String c r
      end
  end.

Definition dirname (p : string) : string :=
  let head := upto_last_sep p in
  if truthy head && negb (all_sep head) then rstrip_sep head else head.

End Py.

Example dirname_file : Py.dirname "/a/b/file.txt" = "/a/b".
Proof. reflexivity. Qed.

Example dirname_root : Py.dirname "/file.txt" = "/".
Proof. reflexivity. Qed.

Example strip_blank : Py.strip (" " +:+ Py.nl) = "".
Proof. reflexivity. Qed.

Example strip_inner : Py.strip (" a b" +:+ Py.nl) = "a b".
Proof. reflexivity. Qed.

Example join_args : Py.join " " ["learn"; "extract"; "--auto"] = "learn extract --auto".
Proof. reflexivity. Qed.

(** ** The editor host

    The part of the Sublime Text API the plugin calls.  A panel object the
    plugin holds is a reference into the window: it is modelled by the
    panel's name, and every command sent to it acts on the window's entry
    of that name. *)

Module Host.

Record View := { file_name : option string }.

Record Panel := {
  text : string;
  sel : nat * nat;
  settings : gmap string bool
}.

Definition new_panel : Panel := {| text := ""; sel := (0, 0)%nat; settings := ∅ |}.

Inductive TextCommand :=
| cmd_append (characters : string)
| cmd_select_all
| cmd_right_delete.

Inductive WindowCommand :=
| cmd_show_panel (panel : string)
| cmd_open_file (file : string).

Record Window := {
  panels : gmap string Panel;
  created : list string;
  active_view : option View;
  commands : list WindowCommand
}.

(** What the UI thread owns: the window, the status messages shown so far
    and the exceptions that escaped a callback into the host (both oldest
    first). *)
Record UI := {
  window : Window;
  status : list string;
  uncaught : list string
}.

Definition with_panels (f : gmap string Panel → gmap string Panel) (w : Window) : Window :=
  {| panels := f (panels w); created := created w;
     active_view := active_view w; commands := commands w |}.

Definition with_window (f : Window → Window) (u : UI) : UI :=
  {| window := f (window u); status := status u; uncaught := uncaught u |}.

(** [window.find_output_panel(name)] *)
Definition find_output_panel (name : string) (w : Window) : option string :=
  match panels w !! name with
  | Some _ => Some name
  | None => None
  end.

(** [window.create_output_panel(name)]: the panel of that name, created
    when the window has none.  Every call is recorded in [created]. *)
Definition create_output_panel (name : string) (w : Window) : string * Window :=
  (name,
   {| panels := match panels w !! name with
                | Some _ => panels w
                | None => <[name := new_panel]> (panels w)
                end;
      created := created w ++ [name];
      active_view := active_view w; commands := commands w |}).

(** [panel.settings().set(key, value)] *)
Definition settings_set (panel key : string) (value : bool) : Window → Window :=
  with_panels (alter (fun p => {| text := text p; sel := sel p;
                                  settings := <[key := value]> (settings p) |}) panel).

(** The text without the characters at positions [a] up to [b]. *)
Definition erase (a b : nat) (s : string) : string :=
  String.substring 0 a s +:+ String.substring b (String.length s - b) s.

Definition run_text_command (c : TextCommand) (p : Panel) : Panel :=
  match c with
  | cmd_append characters =>
      {| text := text p +:+ characters; sel := sel p; settings := settings p |}
  | cmd_select_all =>
      {| text := text p; sel := (0%nat, String.length (text p)); settings := settings p |}
  | cmd_right_delete =>
      let lo := Nat.min (fst (sel p)) (snd (sel p)) in
      let hi := Nat.max (fst (sel p)) (snd (sel p)) in
      {| text := if (lo =? hi)%nat then erase lo (S lo) (text p) else erase lo hi (text p);
         sel := (lo, lo); settings := settings p |}
  end.

(** [panel.run_command(c)] *)
Definition view_run_command (panel : string) (c : TextCommand) : Window → Window :=
  with_panels (alter (run_text_command c) panel).

(** [window.run_command(c)] *)
Definition window_run_command (c : WindowCommand) (w : Window) : Window :=
  {| panels := panels w; created := created w;
     active_view := active_view w; commands := commands w ++ [c] |}.

(** [sublime.status_message(msg)] *)
Definition status_message (msg : string) (u : UI) : UI :=
  {| window := window u; status := status u ++ [msg]; uncaught := uncaught u |}.

(** An exception leaves a callback of the UI thread: the host reports it
    and goes on. *)
Definition report (exn : string) (u : UI) : UI :=
  {| window := window u; status := status u; uncaught := uncaught u ++ [exn] |}.

End Host.

(** ** The plugin *)

Module Plugin.
Import Py Host.

Definition murmur : string := "murmur".

Definition get_output_panel (name : string) (window : Window) : string * Window :=
  let '(panel, window) :=
    match find_output_panel name window with
    | None => create_output_panel name window
    | Some panel => (panel, window)
    end in
  let window := settings_set panel "word_wrap" true window in
  let window := settings_set panel "line_numbers" false window in
  let window := settings_set panel "gutter" false window in
  (panel, window).

Definition show_output (content name : string) (window : Window) : Window :=
  let '(panel, window) := get_output_panel name window in
  let window := view_run_command panel (cmd_append (content +:+ nl)) window in
  window_run_command (cmd_show_panel ("output." +:+ name)) window.

Definition clear_output (name : string) (window : Window) : Window :=
  let '(panel, window) := get_output_panel name window in
  let window := view_run_command panel cmd_select_all window in
  view_run_command panel cmd_right_delete window.

(** *** What [subprocess.run] can do *)

Record CompletedProcess := {
  returncode : Z;
  stdout : string;
  stderr : string
}.

(** The exceptions [except Exception] catches, split as the handlers of
    [run] split them; each carries [str(e)]. *)
Inductive Exception :=
| FileNotFoundError (message : string)
| OtherError (message : string).

Definition str (x : Exception) : string :=
  match x with FileNotFoundError m | OtherError m => m end.

Inductive Outcome :=
| Returns (result : CompletedProcess)
| Raises (x : Exception).

(** One call of [subprocess.run]: the argument vector and [cwd]. *)
Record Spawn := { argv : list string; cwd : option string }.

(** *** The closures of [run]

    The variables the lambdas of [run] refer to live in cells shared
    between the thread and the lambdas: a lambda reads a cell when it is
    called, not when it is made.  [args] and [status_msg] are parameters
    of [run_mur_command] and stay bound; [output], [error_msg] and [e]
    are locals of [run].  [e] is the target of [except Exception as e],
    which Python unbinds when the handler is left. *)
Record Frame := {
  args : list string;
  status_msg : string;
  output : option string;
  error_msg : option string;
  e : option Exception
}.

Definition new_frame (args : list string) (status_msg : string) : Frame :=
  {| args := args; status_msg := status_msg;
     output := None; error_msg := None; e := None |}.

(** The lambdas of [run], in the order of the source. *)
Inductive Lambda :=
| lambda_clear
| lambda_echo
| lambda_output
| lambda_complete
| lambda_failed
| lambda_error_msg
| lambda_not_found
| lambda_exception
| lambda_error_occurred.

#[global] Instance Lambda_eq_dec : EqDecision Lambda.
Proof. solve_decision. Defined.

(** The statements of the thread that the UI thread can tell apart. *)
Inductive Instr :=
| set_timeout (callback : Lambda)
| subprocess_run (call : Spawn)
| assign_output (value : string)
| assign_error_msg (value : string)
| bind_e (x : Exception)
| unbind_e.

Definition not_found_text : string :=
  "Error: 'mur' command not found." +:+ nl +:+
  "Please install murmur-ai CLI and ensure it's in your PATH." +:+ nl +:+
  "See: https://github.com/anthropics/murmur-ai".

(** The line [show_output] is given for the command: [f"$ mur {' '.join(args)}\n"] *)
Definition echo_line (args : list string) : string :=
  "$ mur " +:+ join " " args +:+ nl.

(** Calling a lambda on the UI thread.  Reading a cell that is not bound
    raises [NameError] before the call in the body is made. *)
Definition call (l : Lambda) (fr : Frame) (u : UI) : UI + string :=
  match l with
  | lambda_clear => inl (with_window (clear_output murmur) u)
  | lambda_echo => inl (with_window (show_output (echo_line (args fr)) murmur) u)
  | lambda_output =>
      match output fr with
      | Some o => inl (with_window (show_output o murmur) u)
      | None => inr "NameError"
      end
  | lambda_complete =>
      inl (status_message ("Murmur: " +:+ status_msg fr +:+ " complete") u)
  | lambda_failed =>
      inl (status_message ("Murmur: " +:+ status_msg fr +:+ " failed") u)
  | lambda_error_msg =>
      match error_msg fr with
      | Some m => inl (with_window (show_output m murmur) u)
      | None => inr "NameError"
      end
  | lambda_not_found => inl (status_message "Murmur: CLI not found" u)
  | lambda_exception =>
      match e fr with
      | Some x => inl (with_window (show_output ("Error: " +:+ str x) murmur) u)
      | None => inr "NameError"
      end
  | lambda_error_occurred => inl (status_message "Murmur: Error occurred" u)
  end.

(** [cwd = None; if view and view.file_name(): cwd = dirname(...)] *)
Definition working_directory (view : option View) : option string :=
  match view with
  | Some v =>
      match file_name v with
      | Some f => if truthy f then Some (dirname f) else None
      | None => None
      end
  | None => None
  end.

(** [output = result.stdout; if result.stderr: output += "\n" + result.stderr] *)
Definition combined_output (result : CompletedProcess) : string :=
  if truthy (stderr result) then stdout result +:+ nl +:+ stderr result
  else stdout result.

(** The body of the nested function [run], for the active view the window
    reports and the outcome of [subprocess.run]. *)
Definition run (args : list string) (clear : bool)
    (view : option View) (oc : Outcome) : list Instr :=
  (if clear then [set_timeout lambda_clear] else []) ++
  [set_timeout lambda_echo] ++
  [subprocess_run {| argv := "mur" :: args; cwd := working_directory view |}] ++
  match oc with
  | Returns result =>
      let output := combined_output result in
      [assign_output output] ++
      (if truthy (strip output) then [set_timeout lambda_output] else []) ++
      (if returncode result =? 0 then [set_timeout lambda_complete]
       else [set_timeout lambda_failed])
  | Raises (FileNotFoundError _) =>
      [assign_error_msg not_found_text;
       set_timeout lambda_error_msg;
       set_timeout lambda_not_found]
  | Raises (OtherError _ as x) =>
      [bind_e x;
       set_timeout lambda_exception;
       set_timeout lambda_error_occurred;
       unbind_e]
  end.

(** *** The two threads

    The state between invocations is the UI and the log of the calls of
    [subprocess.run].  During an invocation there are also the rest of the
    thread's program, the cells, and the callbacks [set_timeout] has
    queued for the UI thread (oldest first). *)
Record Editor := {
  ui : UI;
  spawned : list Spawn
}.

Record Machine := {
  editor : Editor;
  worker : list Instr;
  frame : Frame;
  queue : list Lambda
}.

(** What a statement does to the cells. *)
Definition update_frame (i : Instr) (fr : Frame) : Frame :=
  match i with
  | assign_output v =>
      {| args := args fr; status_msg := status_msg fr;
         output := Some v; error_msg := error_msg fr; e := e fr |}
  | assign_error_msg v =>
      {| args := args fr; status_msg := status_msg fr;
         output := output fr; error_msg := Some v; e := e fr |}
  | bind_e x =>
      {| args := args fr; status_msg := status_msg fr;
         output := output fr; error_msg := error_msg fr; e := Some x |}
  | unbind_e =>
      {| args := args fr; status_msg := status_msg fr;
         output := output fr; error_msg := error_msg fr; e := None |}
  | set_timeout _ | subprocess_run _ => fr
  end.

Definition exec_instr (i : Instr) (m : Machine) : Machine :=
  {| editor :=
       {| ui := ui (editor m);
          spawned := match i with
                     | subprocess_run c => spawned (editor m) ++ [c]
                     | _ => spawned (editor m)
                     end |};
     worker := worker m;
     frame := update_frame i (frame m);
     queue := match i with
              | set_timeout l => queue m ++ [l]
              | _ => queue m
              end |}.

(** The thread runs its next statement. *)
Definition worker_step (m : Machine) : Machine :=
  match worker m with
  | [] => m
  | i :: rest =>
      exec_instr i {| editor := editor m; worker := rest;
                      frame := frame m; queue := queue m |}
  end.

(** The host calls a callback; an exception that leaves it is reported. *)
Definition dispatch (l : Lambda) (fr : Frame) (u : UI) : UI :=
  match call l fr u with
  | inl u' => u'
  | inr exn => report exn u
  end.

(** The UI thread calls the oldest queued callback. *)
Definition ui_step (m : Machine) : Machine :=
  match queue m with
  | [] => m
  | l :: rest =>
      {| editor := {| ui := dispatch l (frame m) (ui (editor m));
                      spawned := spawned (editor m) |};
         worker := worker m; frame := frame m; queue := rest |}
  end.

Inductive Turn := Worker | Main.

Definition step (m : Machine) (t : Turn) : Machine :=
  match t with
  | Worker => worker_step m
  | Main => ui_step m
  end.

(** The thread runs to its end. *)
Definition finish_worker (m : Machine) : Machine :=
  foldl (fun m i => exec_instr i m)
        {| editor := editor m; worker := []; frame := frame m; queue := queue m |}
        (worker m).

(** The UI thread calls every queued callback. *)
Definition drain (m : Machine) : Machine :=
  {| editor := {| ui := foldl (fun u l => dispatch l (frame m) u) (ui (editor m)) (queue m);
                  spawned := spawned (editor m) |};
     worker := worker m; frame := frame m; queue := [] |}.

(** One invocation to its end: the threads take turns as [sched] says,
    then the thread finishes and the UI thread empties the queue. *)
Definition execute (sched : list Turn) (m : Machine) : Editor :=
  editor (drain (finish_worker (foldl step m sched))).

(** *** The commands *)

(** [run_mur_command] shows the running status and starts the thread.  No
    callback changes the active view, so the thread finds the one the
    window has now. *)
Definition run_mur_command (args : list string) (status_msg : string) (clear : bool)
    (oc : Outcome) (ed : Editor) : Machine :=
  {| editor := {| ui := status_message ("Murmur: " +:+ status_msg +:+ "...") (ui ed);
                  spawned := spawned ed |};
     worker := run args clear (active_view (window (ui ed))) oc;
     frame := new_frame args status_msg;
     queue := [] |}.

Inductive MurCommand :=
| MurmurSyncCommand
| MurmurLearnExtractCommand
| MurmurStatsCommand
| MurmurPatternsCommand.

Definition command_run (c : MurCommand) : Outcome → Editor → Machine :=
  match c with
  | MurmurSyncCommand => run_mur_command ["sync"; "all"] "Syncing" true
  | MurmurLearnExtractCommand =>
      run_mur_command ["learn"; "extract"; "--auto"] "Extracting learnings" true
  | MurmurStatsCommand => run_mur_command ["stats"] "Loading stats" true
  | MurmurPatternsCommand => run_mur_command ["patterns"; "list"] "Loading patterns" true
  end.

Definition MurmurOpenSettingsCommand_run (ed : Editor) : Editor :=
  {| ui := with_window
             (window_run_command
                (cmd_open_file "${packages}/MurmurAI/MurmurAI.sublime-settings"))
             (ui ed);
     spawned := spawned ed |}.

End Plugin.

(** ** Facts about the string functions *)

Section StringFacts.
Import Py.

Lemma str_app_nil_l (s : string) : "" +:+ s = s.
Proof. reflexivity. Qed.

Lemma str_app_cons (c : ascii) (s t : string) : String c s +:+ t = String c (s +:+ t).
Proof. reflexivity. Qed.

Lemma str_app_nil_r (s : string) : s +:+ "" = s.
Proof. induction s as [|c s IH]; [reflexivity|]. by rewrite str_app_cons, IH. Qed.

Lemma str_app_assoc (s t r : string) : (s +:+ t) +:+ r = s +:+ t +:+ r.
Proof. induction s as [|c s IH]; [reflexivity|]. by rewrite !str_app_cons, IH. Qed.

Lemma prefix_app (s t : string) : String.prefix s (s +:+ t) = true.
Proof.
  induction s as [|c s IH]; [by destruct t|].
  rewrite str_app_cons. simpl. by destruct (ascii_dec c c).
Qed.

Lemma contains_unfold (sub s : string) :
  contains sub s =
  String.prefix sub s || match s with "" => false | String _ s' => contains sub s' end.
Proof. by destruct s. Qed.

Lemma contains_here (sub t : string) : contains sub (sub +:+ t) = true.
Proof. by rewrite contains_unfold, prefix_app. Qed.

(** [sub in a + sub + b] *)
Lemma contains_app (a sub b : string) : contains sub (a +:+ sub +:+ b) = true.
Proof.
  induction a as [|c a IH]; [rewrite str_app_nil_l; apply contains_here|].
  rewrite str_app_cons, contains_unfold, IH. apply orb_true_r.
Qed.

Lemma contains_skip (a sub t : string) :
  contains sub t = true → contains sub (a +:+ t) = true.
Proof.
  intros H. induction a as [|c a IH]; [done|].
  rewrite str_app_cons, contains_unfold, IH. apply orb_true_r.
Qed.

Lemma substring_0_0 (s : string) : String.substring 0 0 s = "".
Proof. by destruct s. Qed.

Lemma substring_end (s : string) : String.substring (String.length s) 0 s = "".
Proof. induction s as [|c s IH]; [reflexivity|]. exact IH. Qed.

Lemma truthy_rstrip (s : string) : truthy (rstrip s) = has_nonspace s.
Proof.
  unfold has_nonspace. induction s as [|c s IH]; [reflexivity|].
  simpl. rewrite <- IH.
  destruct (rstrip s); simpl; [by destruct (isspace c)|by rewrite orb_true_r].
Qed.

Lemma has_nonspace_lstrip (s : string) : has_nonspace (lstrip s) = has_nonspace s.
Proof.
  unfold has_nonspace. induction s as [|c s IH]; [reflexivity|].
  simpl. destruct (isspace c) eqn:E; simpl; [exact IH|by rewrite E].
Qed.

(** [bool(s.strip())] holds exactly when [s] has a character that is not
    whitespace. *)
Lemma truthy_strip (s : string) : truthy (strip s) = has_nonspace s.
Proof. unfold strip. by rewrite truthy_rstrip, has_nonspace_lstrip. Qed.

Lemma has_nonspace_app (s t : string) :
  has_nonspace (s +:+ t) = has_nonspace s || has_nonspace t.
Proof.
  unfold has_nonspace. induction s as [|c s IH]; [reflexivity|].
  rewrite str_app_cons. simpl. by rewrite IH, orb_assoc.
Qed.

Lemma has_nonspace_truthy (s : string) : has_nonspace s = true → truthy s = true.
Proof. by destruct s. Qed.

(** *** [dirname] on a path in POSIX form *)

(** No character of [s] is the separator. *)
Definition no_sep (s : string) : Prop :=
  forallb (fun x => negb (Ascii.eqb x "/")) (String.list_ascii_of_string s) = true.

Lemma no_sep_has_sep (s : string) : no_sep s → has_sep s = false.
Proof.
  unfold no_sep. induction s as [|x s IH]; [done|]. simpl.
  intros [Hx Hs]%andb_true_iff. rewrite (IH Hs), orb_false_r.
  unfold slash. by destruct (Ascii.eqb x "/").
Qed.

Lemma upto_last_sep_join (d base : string) :
  no_sep base → upto_last_sep (d +:+ String slash base) = d +:+ String slash "".
Proof.
  intros Hb. induction d as [|x d IH].
  - rewrite !str_app_nil_l. simpl. by rewrite (no_sep_has_sep _ Hb), ?Ascii.eqb_refl.
  - rewrite !str_app_cons. simpl. rewrite IH.
    assert (has_sep (d +:+ String slash base) = true) as ->; [|done].
    clear IH. induction d as [|y d IH]; simpl.
    + by rewrite ?Ascii.eqb_refl.
    + rewrite IH. apply orb_true_r.
Qed.

Lemma rstrip_sep_snoc (d : string) : rstrip_sep (d +:+ String slash "") = rstrip_sep d.
Proof.
  induction d as [|x d IH]; [simpl; by rewrite ?Ascii.eqb_refl|].
  rewrite str_app_cons. simpl. by rewrite IH.
Qed.

Lemma all_sep_snoc (d : string) : all_sep (d +:+ String slash "") = all_sep d.
Proof.
  induction d as [|x d IH]; [simpl; by rewrite ?Ascii.eqb_refl|].
  rewrite str_app_cons. simpl. by rewrite IH.
Qed.

Lemma rstrip_sep_keeps (d : string) (x : ascii) :
  x ≠ slash →
  rstrip_sep (d +:+ String x "") = d +:+ String x "" ∧
  all_sep (d +:+ String x "") = false.
Proof.
  intros Hx. apply Ascii.eqb_neq in Hx.
  induction d as [|y d [IH1 IH2]].
  - rewrite str_app_nil_l. simpl. by rewrite Hx.
  - rewrite str_app_cons. simpl. rewrite IH1, IH2, andb_false_r.
    split; [|done]. by destruct d.
Qed.

(** The directory of [d/base] is [d], when [d] ends in a character that is
    not the separator and [base] has no separator. *)
Lemma dirname_join (d base : string) (x : ascii) :
  x ≠ slash → no_sep base →
  dirname ((d +:+ String x "") +:+ String slash base) = d +:+ String x "".
Proof.
  intros Hx Hb. unfold dirname. rewrite (upto_last_sep_join _ _ Hb).
  destruct (rstrip_sep_keeps d x Hx) as [H1 H2].
  rewrite rstrip_sep_snoc, all_sep_snoc, H1, H2.
  assert (truthy ((d +:+ String x "") +:+ String slash "") = true) as ->; [|done].
  by destruct d.
Qed.

(** The directory of [/base] is the root. *)
Lemma dirname_root_file (base : string) :
  no_sep base → dirname (String slash base) = String slash "".
Proof.
  intros Hb. unfold dirname.
  rewrite <- (str_app_nil_l (String slash base)), (upto_last_sep_join _ _ Hb).
  rewrite str_app_nil_l. simpl. by rewrite ?Ascii.eqb_refl.
Qed.

End StringFacts.

(** ** Facts about the panel functions *)

Section PanelFacts.
Import Py Host Plugin.

(** The text the panel of that name holds; a window without the panel
    counts as holding none. *)
Definition text_of (name : string) (w : Window) : string :=
  default "" (text <$> panels w !! name).

(** The three settings [get_output_panel] writes. *)
Definition with_settings (p : Panel) : Panel :=
  {| text := text p; sel := sel p;
     settings := <["gutter" := false]>
                   (<["line_numbers" := false]> (<["word_wrap" := true]> (settings p))) |}.

Lemma lookup_settings_set (panel key : string) (value : bool) (w : Window) (n : string) :
  panels (settings_set panel key value w) !! n =
  if decide (panel = n)
  then (fun p => {| text := text p; sel := sel p;
                    settings := <[key := value]> (settings p) |}) <$> panels w !! panel
  else panels w !! n.
Proof. unfold settings_set, with_panels. simpl. apply lookup_alter. Qed.

Lemma lookup_view_run_command (panel : string) (c : TextCommand) (w : Window) (n : string) :
  panels (view_run_command panel c w) !! n =
  if decide (panel = n) then run_text_command c <$> panels w !! panel else panels w !! n.
Proof. unfold view_run_command, with_panels. simpl. apply lookup_alter. Qed.

Lemma get_output_panel_fst (name : string) (w : Window) :
  (get_output_panel name w).1 = name.
Proof.
  unfold get_output_panel, find_output_panel, create_output_panel.
  by destruct (panels w !! name).
Qed.

Lemma get_output_panel_lookup (name : string) (w : Window) :
  panels (get_output_panel name w).2 !! name =
  Some (with_settings (default new_panel (panels w !! name))).
Proof.
  unfold get_output_panel, find_output_panel, create_output_panel.
  destruct (panels w !! name) as [p|] eqn:E; cbv beta iota zeta delta [fst snd];
    rewrite !lookup_settings_set; repeat case_decide; try done; simpl.
  - by rewrite E.
  - by rewrite lookup_insert_eq.
Qed.

Lemma get_output_panel_other (name n : string) (w : Window) :
  n ≠ name → panels (get_output_panel name w).2 !! n = panels w !! n.
Proof.
  intros Hn. unfold get_output_panel, find_output_panel, create_output_panel.
  destruct (panels w !! name) as [p|] eqn:E; cbv beta iota zeta delta [fst snd];
    rewrite !lookup_settings_set; repeat case_decide; try done; simpl.
  by rewrite lookup_insert_ne.
Qed.

Lemma get_output_panel_created (name : string) (w : Window) :
  created (get_output_panel name w).2 =
  created w ++ match panels w !! name with Some _ => [] | None => [name] end.
Proof.
  unfold get_output_panel, find_output_panel, create_output_panel.
  destruct (panels w !! name); simpl; [by rewrite app_nil_r|done].
Qed.

Lemma get_output_panel_rest (name : string) (w : Window) :
  active_view (get_output_panel name w).2 = active_view w ∧
  commands (get_output_panel name w).2 = commands w.
Proof.
  unfold get_output_panel, find_output_panel, create_output_panel.
  by destruct (panels w !! name).
Qed.

Lemma show_output_text (content name : string) (w : Window) :
  text_of name (show_output content name w) = text_of name w +:+ content +:+ nl.
Proof.
  unfold show_output, text_of.
  pose proof (get_output_panel_fst name w) as H1.
  pose proof (get_output_panel_lookup name w) as H2.
  destruct (get_output_panel name w) as [p w']. cbn [fst snd] in *. subst p.
  unfold window_run_command. cbn [panels].
  rewrite lookup_view_run_command, H2. case_decide; [|done].
  simpl. by destruct (panels w !! name).
Qed.

Lemma clear_output_text (name : string) (w : Window) :
  text_of name (clear_output name w) = "".
Proof.
  unfold clear_output, text_of.
  pose proof (get_output_panel_fst name w) as H1.
  pose proof (get_output_panel_lookup name w) as H2.
  destruct (get_output_panel name w) as [p w']. cbn [fst snd] in *. subst p.
  rewrite !lookup_view_run_command, H2. case_decide; [|done].
  simpl. set (t := text (default new_panel (panels w !! name))).
  destruct t as [|c t']; [reflexivity|]. unfold erase.
  by rewrite substring_0_0, Nat.sub_diag, substring_end.
Qed.

(** What the two panel functions leave alone, and what they add. *)
Lemma show_output_frame (content name : string) (w : Window) :
  (∀ n, n ≠ name → panels (show_output content name w) !! n = panels w !! n) ∧
  is_Some (panels (show_output content name w) !! name) ∧
  created (show_output content name w) =
    created w ++ match panels w !! name with Some _ => [] | None => [name] end ∧
  active_view (show_output content name w) = active_view w ∧
  commands (show_output content name w) =
    commands w ++ [cmd_show_panel ("output." +:+ name)].
Proof.
  unfold show_output.
  pose proof (get_output_panel_fst name w) as H1.
  pose proof (get_output_panel_lookup name w) as H2.
  pose proof (fun n => get_output_panel_other name n w) as H3.
  pose proof (get_output_panel_created name w) as H4.
  pose proof (get_output_panel_rest name w) as [H5 H6].
  destruct (get_output_panel name w) as [p w']. cbn [fst snd] in *. subst p.
  unfold window_run_command. cbn [panels created active_view commands].
  repeat split.
  - intros n Hn. rewrite lookup_view_run_command. case_decide; [congruence|].
    by apply H3.
  - rewrite lookup_view_run_command, H2. case_decide; [|done]. by eexists.
  - done.
  - done.
  - by rewrite <- H6.
Qed.

Lemma clear_output_frame (name : string) (w : Window) :
  (∀ n, n ≠ name → panels (clear_output name w) !! n = panels w !! n) ∧
  is_Some (panels (clear_output name w) !! name) ∧
  created (clear_output name w) =
    created w ++ match panels w !! name with Some _ => [] | None => [name] end ∧
  active_view (clear_output name w) = active_view w ∧
  commands (clear_output name w) = commands w.
Proof.
  unfold clear_output.
  pose proof (get_output_panel_fst name w) as H1.
  pose proof (get_output_panel_lookup name w) as H2.
  pose proof (fun n => get_output_panel_other name n w) as H3.
  pose proof (get_output_panel_created name w) as H4.
  pose proof (get_output_panel_rest name w) as [H5 H6].
  destruct (get_output_panel name w) as [p w']. cbn [fst snd] in *. subst p.
  repeat split.
  - intros n Hn. rewrite !lookup_view_run_command. case_decide; [congruence|].
    by apply H3.
  - rewrite !lookup_view_run_command, H2. case_decide; [|done]. by eexists.
  - done.
  - done.
  - done.
Qed.

End PanelFacts.

(** ** Facts about one invocation under a schedule *)

Section MachineFacts.
Import Py Host Plugin.

(** The callbacks a program hands to [set_timeout], its calls of
    [subprocess.run], and the cells when it has ended. *)
Definition posts (prog : list Instr) : list Lambda :=
  omap (fun i => match i with set_timeout l => Some l | _ => None end) prog.

Definition spawns (prog : list Instr) : list Spawn :=
  omap (fun i => match i with subprocess_run c => Some c | _ => None end) prog.

Definition final_frame (fr : Frame) (prog : list Instr) : Frame :=
  foldl (fun fr i => update_frame i fr) fr prog.

(** The callbacks still to be called, oldest first: those queued and those
    the thread has yet to queue. *)
Definition pending (m : Machine) : list Lambda := queue m ++ posts (worker m).

(** Where an invocation ends when the UI thread calls nothing before the
    thread has ended. *)
Definition settled (m : Machine) : Editor :=
  {| ui := foldl (fun u l => dispatch l (final_frame (frame m) (worker m)) u)
                 (ui (editor m)) (pending m);
     spawned := spawned (editor m) ++ spawns (worker m) |}.

Lemma finish_worker_fold (prog : list Instr) (ed : Editor) (fr : Frame) (q : list Lambda) :
  foldl (fun m i => exec_instr i m)
        {| editor := ed; worker := []; frame := fr; queue := q |} prog =
  {| editor := {| ui := ui ed; spawned := spawned ed ++ spawns prog |};
     worker := []; frame := final_frame fr prog; queue := q ++ posts prog |}.
Proof.
  revert ed fr q. induction prog as [|i prog IH]; intros ed fr q.
  - simpl. rewrite !app_nil_r. by destruct ed.
  - change (foldl ?f ?a (i :: prog)) with (foldl f (f a i) prog).
    unfold exec_instr at 2. cbn [editor worker frame queue].
    rewrite IH. cbn [ui spawned].
    destruct i; cbn [posts spawns omap final_frame foldl];
      rewrite <- ?app_assoc; reflexivity.
Qed.

Lemma execute_nil (m : Machine) : execute [] m = settled m.
Proof.
  unfold execute, settled, pending, finish_worker, drain.
  cbn [foldl]. by rewrite finish_worker_fold.
Qed.

Lemma execute_cons (t : Turn) (sched : list Turn) (m : Machine) :
  execute (t :: sched) m = execute sched (step m t).
Proof. reflexivity. Qed.

Lemma execute_settled (sched : list Turn) (m : Machine) :
  execute sched m = settled (foldl step m sched).
Proof.
  revert m. induction sched as [|t sched IH]; intros m.
  - apply execute_nil.
  - rewrite execute_cons. apply IH.
Qed.

(** *** The two kinds of step *)

Lemma worker_step_nil (m : Machine) : worker m = [] → worker_step m = m.
Proof. unfold worker_step. by intros ->. Qed.

Lemma worker_step_cons (m : Machine) (i : Instr) (rest : list Instr) :
  worker m = i :: rest →
  worker_step m =
  {| editor := {| ui := ui (editor m);
                  spawned := spawned (editor m) ++ spawns [i] |};
     worker := rest; frame := update_frame i (frame m);
     queue := queue m ++ posts [i] |}.
Proof.
  unfold worker_step, exec_instr. intros ->. cbn [editor worker frame queue].
  destruct i; cbn [posts spawns omap]; rewrite ?app_nil_r; reflexivity.
Qed.

Lemma ui_step_nil (m : Machine) : queue m = [] → ui_step m = m.
Proof. unfold ui_step. by intros ->. Qed.

Lemma ui_step_cons (m : Machine) (l : Lambda) (rest : list Lambda) :
  queue m = l :: rest →
  ui_step m =
  {| editor := {| ui := dispatch l (frame m) (ui (editor m));
                  spawned := spawned (editor m) |};
     worker := worker m; frame := frame m; queue := rest |}.
Proof. unfold ui_step. by intros ->. Qed.

Lemma posts_cons (i : Instr) (prog : list Instr) : posts (i :: prog) = posts [i] ++ posts prog.
Proof. by destruct i. Qed.

Lemma spawns_cons (i : Instr) (prog : list Instr) :
  spawns (i :: prog) = spawns [i] ++ spawns prog.
Proof. by destruct i. Qed.

Lemma settled_worker_step (m : Machine) : settled (worker_step m) = settled m.
Proof.
  destruct (worker m) as [|i rest] eqn:E.
  - by rewrite worker_step_nil.
  - rewrite (worker_step_cons m i rest E). unfold settled, pending.
    cbn [editor worker frame queue ui spawned]. rewrite E.
    rewrite (posts_cons i rest), (spawns_cons i rest), <- !app_assoc.
    reflexivity.
Qed.

(** The calls of [subprocess.run] do not depend on the schedule. *)
Lemma spawned_execute (sched : list Turn) (m : Machine) :
  spawned (execute sched m) = spawned (editor m) ++ spawns (worker m).
Proof.
  revert m. induction sched as [|t sched IH]; intros m.
  - by rewrite execute_nil.
  - rewrite execute_cons, IH. destruct t; cbn [step].
    + change (spawned (editor (worker_step m)) ++ spawns (worker (worker_step m)))
        with (spawned (settled (worker_step m))).
      by rewrite settled_worker_step.
    + destruct (queue m) as [|l rest] eqn:E.
      * by rewrite ui_step_nil.
      * by rewrite (ui_step_cons m l rest E).
Qed.

End MachineFacts.

(** ** When the schedule does not matter

    A lambda reads its cells when it is called.  If every cell a queued
    lambda reads is bound when the lambda is queued and keeps its value
    until the thread ends, the UI thread finds the same values whenever it
    calls the lambda. *)

Section ScheduleFacts.
Import Py Host Plugin.

(** The cells the lambda reads are bound. *)
Definition callable (l : Lambda) (fr : Frame) : Prop :=
  match l with
  | lambda_output => is_Some (output fr)
  | lambda_error_msg => is_Some (error_msg fr)
  | lambda_exception => is_Some (e fr)
  | _ => True
  end.

(** [fr'] binds every cell [fr] binds, to the same value. *)
Definition extends (fr fr' : Frame) : Prop :=
  args fr' = args fr ∧ status_msg fr' = status_msg fr ∧
  (∀ v, output fr = Some v → output fr' = Some v) ∧
  (∀ v, error_msg fr = Some v → error_msg fr' = Some v) ∧
  (∀ v, e fr = Some v → e fr' = Some v).

(** The statement binds a cell that was not bound, or binds none. *)
Definition binds_fresh (i : Instr) (fr : Frame) : Prop :=
  match i with
  | set_timeout l => callable l fr
  | subprocess_run _ => True
  | assign_output _ => output fr = None
  | assign_error_msg _ => error_msg fr = None
  | bind_e _ => e fr = None
  | unbind_e => e fr = None
  end.

Fixpoint sound (prog : list Instr) (fr : Frame) : Prop :=
  match prog with
  | [] => True
  | i :: prog' => binds_fresh i fr ∧ sound prog' (update_frame i fr)
  end.

Definition safe (m : Machine) : Prop :=
  Forall (fun l => callable l (frame m)) (queue m) ∧ sound (worker m) (frame m).

Lemma extends_refl (fr : Frame) : extends fr fr.
Proof. by repeat split. Qed.

Lemma extends_trans (f1 f2 f3 : Frame) : extends f1 f2 → extends f2 f3 → extends f1 f3.
Proof.
  intros (A1 & S1 & O1 & M1 & E1) (A2 & S2 & O2 & M2 & E2).
  repeat split; try congruence; eauto.
Qed.

Lemma update_frame_extends (i : Instr) (fr : Frame) :
  binds_fresh i fr → extends fr (update_frame i fr).
Proof.
  destruct i; simpl; intros H; repeat split; try done; intros v Hv; congruence.
Qed.

Lemma sound_extends (prog : list Instr) (fr : Frame) :
  sound prog fr → extends fr (final_frame fr prog).
Proof.
  revert fr. induction prog as [|i prog IH]; intros fr; [intros _; apply extends_refl|].
  intros [Hi Hp]. eapply extends_trans; [by apply update_frame_extends|].
  by apply IH.
Qed.

Lemma callable_extends (l : Lambda) (fr fr' : Frame) :
  callable l fr → extends fr fr' → callable l fr'.
Proof.
  intros Hc (_ & _ & O & M & E).
  destruct l; simpl in *; try done; destruct Hc as [v Hv]; eauto.
Qed.

Lemma dispatch_extends (l : Lambda) (fr fr' : Frame) (u : UI) :
  callable l fr → extends fr fr' → dispatch l fr u = dispatch l fr' u.
Proof.
  intros Hc (A & S & O & M & E). unfold dispatch, call.
  destruct l; simpl in Hc; try (rewrite ?A, ?S; reflexivity);
    destruct Hc as [v Hv].
  - by rewrite Hv, (O _ Hv).
  - by rewrite Hv, (M _ Hv).
  - by rewrite Hv, (E _ Hv).
Qed.

Lemma safe_step (m : Machine) (t : Turn) : safe m → safe (step m t).
Proof.
  intros Hs. destruct t; cbn [step].
  - destruct (worker m) as [|i rest] eqn:E; [by rewrite worker_step_nil|].
    rewrite (worker_step_cons m i rest E). destruct Hs as [Hq Hw].
    rewrite E in Hw. destruct Hw as [Hi Hr].
    split; cbn [queue frame worker]; [|done].
    apply Forall_app. split.
    + eapply Forall_impl; [exact Hq|]. intros l Hl.
      eapply callable_extends; [exact Hl|by apply update_frame_extends].
    + destruct i; cbn [posts omap]; try constructor; [|constructor]. exact Hi.
  - destruct (queue m) as [|l rest] eqn:E; [by rewrite ui_step_nil|].
    rewrite (ui_step_cons m l rest E). destruct Hs as [Hq Hw]. rewrite E in Hq.
    split; cbn [queue frame worker]; [|done]. by inversion Hq.
Qed.

Lemma settled_ui_step (m : Machine) : safe m → settled (ui_step m) = settled m.
Proof.
  intros Hs. destruct (queue m) as [|l rest] eqn:E; [by rewrite ui_step_nil|].
  destruct Hs as [Hq Hw].
  rewrite (ui_step_cons m l rest E). unfold settled, pending.
  cbn [editor worker frame queue ui spawned]. rewrite E. cbn [app foldl].
  rewrite E in Hq. inversion Hq as [|? ? Hl _]; subst.
  by rewrite (dispatch_extends l _ _ _ Hl (sound_extends _ _ Hw)).
Qed.

(** A safe invocation ends in the same state under every schedule. *)
Theorem schedule_independent (sched : list Turn) (m : Machine) :
  safe m → execute sched m = settled m.
Proof.
  revert m. induction sched as [|t sched IH]; intros m Hs; [apply execute_nil|].
  rewrite execute_cons, IH by (by apply safe_step).
  destruct t; cbn [step]; [apply settled_worker_step|by apply settled_ui_step].
Qed.

(** *** Invariants of the callbacks in their order

    Whatever the schedule, the callbacks are called in the order the
    thread queues them.  A property [Q ls u] of the callbacks [ls] still
    to be called and the UI that every call carries to the rest of the
    list holds of the empty list at the end. *)
Section Fifo.
Variable F : Frame → Prop.
Variable Q : list Lambda → UI → Prop.
Hypothesis Q_dispatch :
  ∀ l ls fr u, F fr → Q (l :: ls) u → Q ls (dispatch l fr u).

Definition fifo_inv (m : Machine) : Prop :=
  F (frame m) ∧
  Forall (fun i => ∀ fr, F fr → F (update_frame i fr)) (worker m) ∧
  Q (pending m) (ui (editor m)).

Lemma fifo_step (m : Machine) (t : Turn) : fifo_inv m → fifo_inv (step m t).
Proof.
  intros Hinv. destruct t; cbn [step].
  - destruct (worker m) as [|i rest] eqn:E; [by rewrite worker_step_nil|].
    destruct Hinv as (Hf & Hw & Hq). rewrite E in Hw.
    rewrite (worker_step_cons m i rest E). inversion Hw as [|? ? Hi Hr]; subst.
    repeat split; cbn [frame worker editor ui]; [by apply Hi|done|].
    unfold pending in *. cbn [queue worker]. rewrite E in Hq.
    by rewrite (posts_cons i rest), app_assoc in Hq.
  - destruct (queue m) as [|l rest] eqn:E; [by rewrite ui_step_nil|].
    destruct Hinv as (Hf & Hw & Hq).
    rewrite (ui_step_cons m l rest E).
    repeat split; cbn [frame worker editor ui]; [done..|].
    unfold pending in *. cbn [queue worker]. rewrite E in Hq.
    by apply Q_dispatch.
Qed.

Lemma fifo_reach (sched : list Turn) (m : Machine) :
  fifo_inv m → fifo_inv (foldl step m sched).
Proof.
  revert m. induction sched as [|t sched IH]; intros m H; [done|].
  apply IH. by apply fifo_step.
Qed.

Lemma fifo_final_frame (prog : list Instr) (fr : Frame) :
  F fr → Forall (fun i => ∀ fr, F fr → F (update_frame i fr)) prog →
  F (final_frame fr prog).
Proof.
  revert fr. induction prog as [|i prog IH]; intros fr Hf Hp; [done|].
  inversion Hp; subst. apply IH; auto.
Qed.

Lemma fifo_settled (m : Machine) : fifo_inv m → Q [] (ui (settled m)).
Proof.
  intros (Hf & Hw & Hq). unfold settled. cbn [ui].
  pose proof (fifo_final_frame _ _ Hf Hw) as Hff.
  revert Hq. generalize (ui (editor m)).
  induction (pending m) as [|l ls IH]; intros u Hq; [done|].
  apply IH. by apply Q_dispatch.
Qed.

Lemma fifo_execute (sched : list Turn) (m : Machine) :
  fifo_inv m → Q [] (ui (execute sched m)).
Proof.
  intros H. rewrite execute_settled. apply fifo_settled. by apply fifo_reach.
Qed.
End Fifo.

End ScheduleFacts.

(** ** What a callback does to the status bar, the panel and the host *)

Section Observations.
Import Py Host Plugin.

(** The status messages the lambda shows. *)
Definition said (l : Lambda) (fr : Frame) : list string :=
  match l with
  | lambda_complete => ["Murmur: " +:+ status_msg fr +:+ " complete"]
  | lambda_failed => ["Murmur: " +:+ status_msg fr +:+ " failed"]
  | lambda_not_found => ["Murmur: CLI not found"]
  | lambda_error_occurred => ["Murmur: Error occurred"]
  | _ => []
  end.

(** The text of the panel after the call, from the text [t] before it. *)
Definition written (l : Lambda) (fr : Frame) (t : string) : string :=
  match l with
  | lambda_clear => ""
  | lambda_echo => t +:+ echo_line (args fr) +:+ nl
  | lambda_output => match output fr with Some o => t +:+ o +:+ nl | None => t end
  | lambda_error_msg => match error_msg fr with Some m => t +:+ m +:+ nl | None => t end
  | lambda_exception =>
      match e fr with Some x => t +:+ ("Error: " +:+ str x) +:+ nl | None => t end
  | _ => t
  end.

(** The exceptions that leave the call. *)
Definition raised (l : Lambda) (fr : Frame) : list string :=
  match l with
  | lambda_output => match output fr with Some _ => [] | None => ["NameError"] end
  | lambda_error_msg => match error_msg fr with Some _ => [] | None => ["NameError"] end
  | lambda_exception => match e fr with Some _ => [] | None => ["NameError"] end
  | _ => []
  end.

Lemma dispatch_status (l : Lambda) (fr : Frame) (u : UI) :
  status (dispatch l fr u) = status u ++ said l fr.
Proof.
  unfold dispatch, call.
  destruct l; try destruct (output fr); try destruct (error_msg fr);
    try destruct (e fr); cbn [status with_window status_message report said];
    rewrite ?app_nil_r; reflexivity.
Qed.

Lemma dispatch_uncaught (l : Lambda) (fr : Frame) (u : UI) :
  uncaught (dispatch l fr u) = uncaught u ++ raised l fr.
Proof.
  unfold dispatch, call, raised.
  destruct l; try destruct (output fr); try destruct (error_msg fr);
    try destruct (e fr); cbn [uncaught with_window status_message report];
    rewrite ?app_nil_r; reflexivity.
Qed.

Lemma dispatch_text (l : Lambda) (fr : Frame) (u : UI) :
  text_of murmur (window (dispatch l fr u)) = written l fr (text_of murmur (window u)).
Proof.
  unfold dispatch, call, written.
  destruct l; try destruct (output fr); try destruct (error_msg fr);
    try destruct (e fr); cbn [window with_window status_message report];
    rewrite ?show_output_text, ?clear_output_text; reflexivity.
Qed.

Lemma foldl_dispatch_status (ls : list Lambda) (fr : Frame) (u : UI) :
  status (foldl (fun u l => dispatch l fr u) u ls) =
  status u ++ concat (map (fun l => said l fr) ls).
Proof.
  revert u. induction ls as [|l ls IH]; intros u; simpl; [by rewrite app_nil_r|].
  by rewrite IH, dispatch_status, <- app_assoc.
Qed.

Lemma foldl_dispatch_uncaught (ls : list Lambda) (fr : Frame) (u : UI) :
  uncaught (foldl (fun u l => dispatch l fr u) u ls) =
  uncaught u ++ concat (map (fun l => raised l fr) ls).
Proof.
  revert u. induction ls as [|l ls IH]; intros u; simpl; [by rewrite app_nil_r|].
  by rewrite IH, dispatch_uncaught, <- app_assoc.
Qed.

Lemma foldl_dispatch_text (ls : list Lambda) (fr : Frame) (u : UI) :
  text_of murmur (window (foldl (fun u l => dispatch l fr u) u ls)) =
  foldl (fun t l => written l fr t) (text_of murmur (window u)) ls.
Proof.
  revert u. induction ls as [|l ls IH]; intros u; simpl; [done|].
  by rewrite IH, dispatch_text.
Qed.

(** A callback leaves the window as it is, or calls one of the two panel
    functions on the panel [murmur]. *)
Lemma dispatch_window (l : Lambda) (fr : Frame) (u : UI) :
  window (dispatch l fr u) = window u ∨
  window (dispatch l fr u) = clear_output murmur (window u) ∨
  ∃ content, window (dispatch l fr u) = show_output content murmur (window u).
Proof.
  unfold dispatch, call.
  destruct l; try destruct (output fr); try destruct (error_msg fr);
    try destruct (e fr); cbn [window with_window status_message report];
    eauto.
Qed.

(** [w] is [w0] after calls that addressed the panel [murmur] and no
    other: the other panels are those of [w0], the panel [murmur] exists,
    and it was created once if [w0] had none and not at all if it had. *)
Definition addressed (w0 w : Window) : Prop :=
  (∀ n, n ≠ murmur → panels w !! n = panels w0 !! n) ∧
  is_Some (panels w !! murmur) ∧
  created w = created w0 ++
              match panels w0 !! murmur with Some _ => [] | None => [murmur] end ∧
  active_view w = active_view w0.

Lemma addressed_next (w0 w w' : Window) :
  w = w0 ∨ addressed w0 w →
  (∀ n, n ≠ murmur → panels w' !! n = panels w !! n) →
  is_Some (panels w' !! murmur) →
  created w' = created w ++
               match panels w !! murmur with Some _ => [] | None => [murmur] end →
  active_view w' = active_view w →
  addressed w0 w'.
Proof.
  intros [->|(A1 & A2 & A3 & A4)] H1 H2 H3 H4; [done|].
  repeat split; [|done| |congruence].
  - intros n Hn. by rewrite H1, A1.
  - destruct A2 as [p Hp]. rewrite Hp in H3. by rewrite H3, app_nil_r.
Qed.

Lemma dispatch_addressed (w0 : Window) (l : Lambda) (fr : Frame) (u : UI) :
  window u = w0 ∨ addressed w0 (window u) →
  window (dispatch l fr u) = w0 ∨ addressed w0 (window (dispatch l fr u)).
Proof.
  intros H. destruct (dispatch_window l fr u) as [->| [->|[c ->]]]; [done|right..].
  - destruct (clear_output_frame murmur (window u)) as (C1 & C2 & C3 & C4 & _).
    by eapply addressed_next.
  - destruct (show_output_frame c murmur (window u)) as (C1 & C2 & C3 & C4 & _).
    by eapply addressed_next.
Qed.

Lemma dispatch_keeps_addressed (w0 : Window) (l : Lambda) (fr : Frame) (u : UI) :
  addressed w0 (window u) → addressed w0 (window (dispatch l fr u)).
Proof.
  intros H. destruct (dispatch_window l fr u) as [->| [->|[c ->]]]; [done|..].
  - destruct (clear_output_frame murmur (window u)) as (C1 & C2 & C3 & C4 & _).
    eapply addressed_next; eauto.
  - destruct (show_output_frame c murmur (window u)) as (C1 & C2 & C3 & C4 & _).
    eapply addressed_next; eauto.
Qed.

Lemma dispatch_echo_addressed (w0 : Window) (fr : Frame) (u : UI) :
  window u = w0 ∨ addressed w0 (window u) →
  addressed w0 (window (dispatch lambda_echo fr u)).
Proof.
  intros H. unfold dispatch, call. cbn [window with_window].
  destruct (show_output_frame (echo_line (args fr)) murmur (window u))
    as (C1 & C2 & C3 & C4 & _).
  by eapply addressed_next.
Qed.

End Observations.

(** ** The commands *)

Section Commands.
Import Py Host Plugin.

Definition command_args (c : MurCommand) : list string :=
  match c with
  | MurmurSyncCommand => ["sync"; "all"]
  | MurmurLearnExtractCommand => ["learn"; "extract"; "--auto"]
  | MurmurStatsCommand => ["stats"]
  | MurmurPatternsCommand => ["patterns"; "list"]
  end.

Definition command_status (c : MurCommand) : string :=
  match c with
  | MurmurSyncCommand => "Syncing"
  | MurmurLearnExtractCommand => "Extracting learnings"
  | MurmurStatsCommand => "Loading stats"
  | MurmurPatternsCommand => "Loading patterns"
  end.

Lemma command_run_eq (c : MurCommand) :
  command_run c = run_mur_command (command_args c) (command_status c) true.
Proof. by destruct c. Qed.

(** An editor whose window has the given active view and, when [t] is
    given, a panel [murmur] holding [t]. *)
Definition editor_with (view : option View) (t : option string) : Editor :=
  {| ui := {| window := {| panels := match t with
                                     | Some s => {[ murmur := {| text := s; sel := (0, 0)%nat;
                                                                 settings := ∅ |} ]}
                                     | None => ∅
                                     end;
                           created := []; active_view := view; commands := [] |};
              status := []; uncaught := [] |};
     spawned := [] |}.

Lemma spawns_run (a : list string) (clear : bool) (view : option View) (oc : Outcome) :
  spawns (run a clear view oc) =
  [{| argv := "mur" :: a; cwd := working_directory view |}].
Proof.
  unfold run. destruct clear, oc as [r|[msg|msg]]; cbv zeta;
    try destruct (truthy (strip (combined_output r)));
    try destruct (returncode r =? 0); reflexivity.
Qed.

Lemma spawned_run_mur_command (a : list string) (s : string) (clear : bool)
    (oc : Outcome) (ed : Editor) (sched : list Turn) :
  spawned (execute sched (run_mur_command a s clear oc ed)) =
  spawned ed ++ [{| argv := "mur" :: a;
                    cwd := working_directory (active_view (window (ui ed))) |}].
Proof.
  rewrite spawned_execute. unfold run_mur_command. cbn [editor worker spawned].
  by rewrite spawns_run.
Qed.

(** *** The program of [run] by outcome *)

Lemma posts_run (a : list string) (clear : bool) (view : option View) (oc : Outcome) :
  posts (run a clear view oc) =
  (if clear then [lambda_clear] else []) ++ [lambda_echo] ++
  match oc with
  | Returns r =>
      (if truthy (strip (combined_output r)) then [lambda_output] else []) ++
      [if returncode r =? 0 then lambda_complete else lambda_failed]
  | Raises (FileNotFoundError _) => [lambda_error_msg; lambda_not_found]
  | Raises (OtherError _) => [lambda_exception; lambda_error_occurred]
  end.
Proof.
  unfold run. destruct clear, oc as [r|[msg|msg]]; cbv zeta;
    try destruct (truthy (strip (combined_output r)));
    try destruct (returncode r =? 0); reflexivity.
Qed.

Lemma final_frame_run (a0 a : list string) (s : string) (clear : bool)
    (view : option View) (oc : Outcome) :
  final_frame (new_frame a s) (run a0 clear view oc) =
  {| args := a; status_msg := s;
     output := match oc with Returns r => Some (combined_output r) | _ => None end;
     error_msg := match oc with
                  | Raises (FileNotFoundError _) => Some not_found_text
                  | _ => None
                  end;
     e := None |}.
Proof.
  unfold run. destruct clear, oc as [r|[msg|msg]]; cbv zeta;
    try destruct (truthy (strip (combined_output r)));
    try destruct (returncode r =? 0); reflexivity.
Qed.

Lemma safe_run_returns (a : list string) (s : string) (clear : bool)
    (r : CompletedProcess) (ed : Editor) :
  safe (run_mur_command a s clear (Returns r) ed).
Proof.
  split; [constructor|]. unfold run_mur_command, run. cbn [worker frame]. cbv zeta.
  destruct clear, (truthy (strip (combined_output r))), (returncode r =? 0);
    cbn [app sound binds_fresh update_frame callable new_frame output];
    repeat split; eauto.
Qed.

Lemma safe_run_not_found (a : list string) (s : string) (clear : bool)
    (msg : string) (ed : Editor) :
  safe (run_mur_command a s clear (Raises (FileNotFoundError msg)) ed).
Proof.
  split; [constructor|]. unfold run_mur_command, run. cbn [worker frame].
  destruct clear;
    cbn [app sound binds_fresh update_frame callable new_frame error_msg];
    repeat split; eauto.
Qed.

(** Where an invocation ends when the thread ends first, as observed on the
    status bar, the host and the panel. *)
Lemma settled_run_mur_command (a : list string) (s : string) (clear : bool)
    (oc : Outcome) (ed : Editor) :
  let fr := final_frame (new_frame a s)
              (run a clear (active_view (window (ui ed))) oc) in
  let ls := posts (run a clear (active_view (window (ui ed))) oc) in
  let u := ui (settled (run_mur_command a s clear oc ed)) in
  status u = status (ui ed) ++ ["Murmur: " +:+ s +:+ "..."] ++
             concat (map (fun l => said l fr) ls) ∧
  uncaught u = uncaught (ui ed) ++ concat (map (fun l => raised l fr) ls) ∧
  text_of murmur (window u) =
    foldl (fun t l => written l fr t) (text_of murmur (window (ui ed))) ls.
Proof.
  unfold settled, pending, run_mur_command. cbn [editor worker frame queue ui app].
  rewrite foldl_dispatch_status, foldl_dispatch_uncaught, foldl_dispatch_text.
  cbn [status_message status uncaught window]. by rewrite <- app_assoc.
Qed.

(** The end of an invocation in which [subprocess.run] returns, under every
    schedule. *)
Lemma returns_observed (a : list string) (s : string) (clear : bool)
    (r : CompletedProcess) (ed : Editor) (sched : list Turn) :
  let u := ui (execute sched (run_mur_command a s clear (Returns r) ed)) in
  status u = status (ui ed) ++
             ["Murmur: " +:+ s +:+ "...";
              if returncode r =? 0 then "Murmur: " +:+ s +:+ " complete"
              else "Murmur: " +:+ s +:+ " failed"] ∧
  uncaught u = uncaught (ui ed) ∧
  text_of murmur (window u) =
    (if clear then "" else text_of murmur (window (ui ed))) +:+
    echo_line a +:+ nl +:+
    (if truthy (strip (combined_output r)) then combined_output r +:+ nl else "").
Proof.
  rewrite schedule_independent by apply safe_run_returns.
  destruct (settled_run_mur_command a s clear (Returns r) ed) as (S & U & T).
  rewrite posts_run, final_frame_run in S, U, T. cbv zeta. rewrite S, U, T.
  destruct clear, (truthy (strip (combined_output r))), (returncode r =? 0);
    cbn [app map concat said raised written foldl status_msg args output];
    rewrite ?app_nil_r, ?str_app_nil_l, ?str_app_nil_r, ?str_app_assoc; done.
Qed.

(** The end of an invocation in which [subprocess.run] raises
    [FileNotFoundError], under every schedule. *)
Lemma not_found_observed (a : list string) (s : string) (clear : bool)
    (msg : string) (ed : Editor) (sched : list Turn) :
  let u := ui (execute sched (run_mur_command a s clear (Raises (FileNotFoundError msg)) ed)) in
  status u = status (ui ed) ++ ["Murmur: " +:+ s +:+ "..."; "Murmur: CLI not found"] ∧
  uncaught u = uncaught (ui ed) ∧
  text_of murmur (window u) =
    (if clear then "" else text_of murmur (window (ui ed))) +:+
    echo_line a +:+ nl +:+ not_found_text +:+ nl.
Proof.
  rewrite schedule_independent by apply safe_run_not_found.
  destruct (settled_run_mur_command a s clear (Raises (FileNotFoundError msg)) ed)
    as (S & U & T).
  rewrite posts_run, final_frame_run in S, U, T. cbv zeta. rewrite S, U, T.
  destruct clear;
    cbn [app map concat said raised written foldl status_msg args error_msg];
    rewrite ?app_nil_r, ?str_app_nil_l, ?str_app_nil_r, ?str_app_assoc; done.
Qed.

(** Every invocation addresses the panel [murmur] of its window and no
    other, whatever the outcome and the schedule. *)
Lemma run_mur_command_addressed (a : list string) (s : string) (clear : bool)
    (oc : Outcome) (ed : Editor) (sched : list Turn) :
  addressed (window (ui ed))
            (window (ui (execute sched (run_mur_command a s clear oc ed)))).
Proof.
  set (w0 := window (ui ed)).
  pose (Q := fun (ls : list Lambda) (u : UI) =>
               (window u = w0 ∨ addressed w0 (window u)) ∧
               (lambda_echo ∉ ls → addressed w0 (window u))).
  assert (Q [] (ui (execute sched (run_mur_command a s clear oc ed)))) as [_ H].
  { apply (fifo_execute (fun _ => True) Q).
    - intros l ls fr u _ [H1 H2]. split; [by apply dispatch_addressed|].
      intros Hls. destruct (decide (l = lambda_echo)) as [->|Hl].
      + by apply dispatch_echo_addressed.
      + apply dispatch_keeps_addressed, H2.
        rewrite elem_of_cons. intros [E|E]; [congruence|done].
    - split; [done|split; [by apply Forall_forall|split; [by left|]]].
      intros Hn. exfalso. apply Hn. unfold pending, run_mur_command.
      cbn [queue worker app]. rewrite posts_run.
      apply elem_of_app. right. apply list_elem_of_here. }
  apply H. apply not_elem_of_nil.
Qed.

(** *** The panel at every moment of an invocation that clears it *)

(** What the handler of the outcome has the panel receive. *)
Definition handler_text (oc : Outcome) : string :=
  match oc with
  | Returns r =>
      if truthy (strip (combined_output r)) then combined_output r +:+ nl else ""
  | Raises (FileNotFoundError _) => not_found_text +:+ nl
  | Raises (OtherError msg) => ("Error: " +:+ msg) +:+ nl
  end.

(** The texts the panel can hold once [k] callbacks have been called, when
    it held [old] before the invocation. *)
Definition texts_after (a : list string) (oc : Outcome) (old : string) (k : nat) :
    list string :=
  match k with
  | 0%nat => [old]
  | 1%nat => [""]
  | 2%nat => [echo_line a +:+ nl]
  | _ => [echo_line a +:+ nl; echo_line a +:+ nl +:+ handler_text oc]
  end.

(** The cells hold nothing but what [run] binds them to for this outcome. *)
Definition bound_as (a : list string) (oc : Outcome) (fr : Frame) : Prop :=
  args fr = a ∧
  (∀ o, output fr = Some o → ∃ r, oc = Returns r ∧ o = combined_output r) ∧
  (∀ m, error_msg fr = Some m → m = not_found_text) ∧
  (∀ x, e fr = Some x → oc = Raises x ∧ ∃ msg, x = OtherError msg).

Lemma drop_cons_next {A} (k : nat) (l : list A) (x : A) (r : list A) :
  drop k l = x :: r → drop (S k) l = r.
Proof.
  revert l. induction k as [|k IH]; intros [|y l] H; simplify_eq/=; eauto.
Qed.

Lemma bound_as_run (a : list string) (view : option View) (oc : Outcome) :
  Forall (fun i => ∀ fr, bound_as a oc fr → bound_as a oc (update_frame i fr))
         (run a true view oc).
Proof.
  unfold run. destruct oc as [r|[msg|msg]]; cbv zeta;
    try destruct (truthy (strip (combined_output r)));
    try destruct (returncode r =? 0); cbn [app];
    repeat first [apply Forall_nil_2 | apply Forall_cons_2];
    intros fr (Ha & Ho & Hm & He); unfold bound_as;
    cbn [update_frame args output error_msg e];
    (split; [done|split; [|split]]); try done; intros ? [= <-]; eauto.
Qed.

Lemma text_dispatch_next (a : list string) (s : string) (oc : Outcome) (ed : Editor)
    (l : Lambda) (ls : list Lambda) (fr : Frame) (t : string) (k : nat) :
  bound_as a oc fr →
  drop k (pending (run_mur_command a s true oc ed)) = l :: ls →
  t ∈ texts_after a oc (text_of murmur (window (ui ed))) k →
  written l fr t ∈ texts_after a oc (text_of murmur (window (ui ed))) (S k).
Proof.
  intros (Ha & Ho & Hm & He). unfold pending, run_mur_command.
  cbn [queue worker app]. rewrite posts_run.
  generalize (text_of murmur (window (ui ed))) as old. intros old Hk Ht.
  destruct oc as [r|[msg|msg]];
    [destruct (truthy (strip (combined_output r))) eqn:Htr, (returncode r =? 0)|..];
    cbn [app] in Hk;
    destruct k as [|[|[|[|k]]]]; cbn [drop] in Hk;
    try (destruct k; discriminate Hk); simplify_eq;
    cbn [texts_after written handler_text] in *; try exact Ht.
  all: repeat match goal with
       | H : _ ∈ [_] |- _ => apply list_elem_of_singleton in H; subst
       end.
  all: rewrite ?Htr, ?str_app_nil_l, ?str_app_nil_r.
  all: try (apply list_elem_of_singleton; reflexivity).
  all: try (apply list_elem_of_here).
  - destruct (output fr) as [o|] eqn:E; [|apply list_elem_of_here].
    destruct (Ho o eq_refl) as (r0 & [= <-] & ->).
    rewrite str_app_assoc. apply list_elem_of_further, list_elem_of_here.
  - destruct (output fr) as [o|] eqn:E; [|apply list_elem_of_here].
    destruct (Ho o eq_refl) as (r0 & [= <-] & ->).
    rewrite str_app_assoc. apply list_elem_of_further, list_elem_of_here.
  - destruct (error_msg fr) as [m|] eqn:E; [|apply list_elem_of_here].
    rewrite (Hm m eq_refl), str_app_assoc.
    apply list_elem_of_further, list_elem_of_here.
  - destruct (e fr) as [x|] eqn:E; [|apply list_elem_of_here].
    destruct (He x eq_refl) as ([= <-] & _). cbn [str].
    rewrite str_app_assoc. apply list_elem_of_further, list_elem_of_here.
Qed.

(** With the callbacks [ls] still to be called, the panel holds one of the
    texts it can hold after the callbacks called so far. *)
Definition text_moment (a : list string) (s : string) (oc : Outcome) (ed : Editor)
    (ls : list Lambda) (u : UI) : Prop :=
  ∃ k, ls = drop k (pending (run_mur_command a s true oc ed)) ∧
       text_of murmur (window u) ∈
         texts_after a oc (text_of murmur (window (ui ed))) k.

Lemma text_moment_dispatch (a : list string) (s : string) (oc : Outcome) (ed : Editor)
    (l : Lambda) (ls : list Lambda) (fr : Frame) (u : UI) :
  bound_as a oc fr →
  text_moment a s oc ed (l :: ls) u → text_moment a s oc ed ls (dispatch l fr u).
Proof.
  intros HF (k & Hk & Ht). exists (S k). split.
  - symmetry. by eapply drop_cons_next.
  - rewrite dispatch_text. by eapply text_dispatch_next.
Qed.

Lemma text_moment_start (a : list string) (s : string) (oc : Outcome) (ed : Editor) :
  fifo_inv (bound_as a oc) (text_moment a s oc ed) (run_mur_command a s true oc ed).
Proof.
  split; [|split].
  - by repeat split.
  - apply bound_as_run.
  - exists 0%nat. split; [done|]. apply list_elem_of_here.
Qed.

(** At every moment of an invocation that clears the panel. *)
Lemma text_at_every_moment (a : list string) (s : string) (oc : Outcome) (ed : Editor)
    (sched : list Turn) :
  let m := foldl step (run_mur_command a s true oc ed) sched in
  text_moment a s oc ed (pending m) (ui (editor m)).
Proof.
  intros m.
  destruct (fifo_reach (bound_as a oc) (text_moment a s oc ed)
              (text_moment_dispatch a s oc ed) sched _ (text_moment_start a s oc ed))
    as (_ & _ & H).
  exact H.
Qed.

(** At the end of an invocation that clears the panel. *)
Lemma text_at_the_end (a : list string) (s : string) (oc : Outcome) (ed : Editor)
    (sched : list Turn) :
  text_of murmur (window (ui (execute sched (run_mur_command a s true oc ed)))) ∈
    [echo_line a +:+ nl; echo_line a +:+ nl +:+ handler_text oc].
Proof.
  destruct (fifo_execute (bound_as a oc) (text_moment a s oc ed)
              (text_moment_dispatch a s oc ed) sched _ (text_moment_start a s oc ed))
    as (k & Hk & Ht).
  assert (3 ≤ k)%nat as Hge.
  { revert Hk. unfold pending, run_mur_command. cbn [queue worker app].
    rewrite posts_run.
    destruct oc as [r|[msg|msg]];
      [destruct (truthy (strip (combined_output r))), (returncode r =? 0)|..];
      destruct k as [|[|[|k]]]; cbn [app drop]; intros Hk;
      first [discriminate Hk | lia]. }
  destruct k as [|[|[|k]]]; [lia..|]. exact Ht.
Qed.

End Commands.

(** ** The properties of the commands *)

Section Properties.
Import Py Host Plugin.

(** C7.  Each of the four commands calls [subprocess.run] once, with the
    executable [mur] followed by the command's own arguments: whatever the
    outcome and the schedule, the log of calls grows by exactly that one
    call. *)
Theorem command_spawns_mur_once (c : MurCommand) (oc : Outcome) (ed : Editor)
    (sched : list Turn) :
  ∃ d, spawned (execute sched (command_run c oc ed)) =
       spawned ed ++
       [{| argv := "mur" :: match c with
                            | MurmurSyncCommand => ["sync"; "all"]
                            | MurmurLearnExtractCommand => ["learn"; "extract"; "--auto"]
                            | MurmurStatsCommand => ["stats"]
                            | MurmurPatternsCommand => ["patterns"; "list"]
                            end;
           cwd := d |}].
Proof.
  eexists. rewrite command_run_eq, spawned_run_mur_command. by destruct c.
Qed.

(** C5.  The working directory handed to [subprocess.run] is the directory
    of the active view's file when the active view has a file name, and
    none ([cwd=None], the process default) when the window has no active
    view or the active view has no file.  File names are paths in POSIX
    form, as [os.path.dirname] of [posixpath] reads them: for the file
    [d/base], where [base] has no [/] and [d] does not end in one, the
    working directory is [d]; for a file [/base] in the root it is [/]. *)
Theorem cwd_is_directory_of_active_file (c : MurCommand) (oc : Outcome) (ed : Editor)
    (sched : list Turn) :
  (∀ v d x base,
     active_view (window (ui ed)) = Some v →
     file_name v = Some ((d +:+ String x "") +:+ String "/" base) →
     x ≠ "/"%char → no_sep base →
     spawned (execute sched (command_run c oc ed)) =
     spawned ed ++ [{| argv := "mur" :: command_args c;
                       cwd := Some (d +:+ String x "") |}]) ∧
  (∀ v base,
     active_view (window (ui ed)) = Some v →
     file_name v = Some (String "/" base) → no_sep base →
     spawned (execute sched (command_run c oc ed)) =
     spawned ed ++ [{| argv := "mur" :: command_args c; cwd := Some "/" |}]) ∧
  (active_view (window (ui ed)) = None →
     spawned (execute sched (command_run c oc ed)) =
     spawned ed ++ [{| argv := "mur" :: command_args c; cwd := None |}]) ∧
  (∀ v, active_view (window (ui ed)) = Some v → file_name v = None →
     spawned (execute sched (command_run c oc ed)) =
     spawned ed ++ [{| argv := "mur" :: command_args c; cwd := None |}]).
Proof.
  rewrite command_run_eq, spawned_run_mur_command. unfold working_directory.
  split; [|split; [|split]].
  - intros v d x base Hv Hf Hx Hb. rewrite Hv, Hf. cbv beta iota.
    pose proof (dirname_join d base x Hx Hb) as Hd. unfold slash in Hd. rewrite Hd.
    assert (truthy ((d +:+ String x "") +:+ String "/" base) = true) as ->; [|done].
    by destruct d.
  - intros v base Hv Hf Hb. rewrite Hv, Hf. cbv beta iota.
    pose proof (dirname_root_file base Hb) as Hd. unfold slash in Hd. by rewrite Hd.
  - by intros ->.
  - by intros v -> ->.
Qed.

Lemma cwd_is_directory_of_active_file_witness :
  spawned (execute [Main; Worker]
             (command_run MurmurStatsCommand
                (Returns {| returncode := 0; stdout := "ok"; stderr := "" |})
                (editor_with (Some {| file_name := Some "/a/b/file.txt" |}) None))) =
  [{| argv := ["mur"; "stats"]; cwd := Some "/a/b" |}].
Proof.
  exact (proj1 (cwd_is_directory_of_active_file MurmurStatsCommand
                  (Returns {| returncode := 0; stdout := "ok"; stderr := "" |})
                  (editor_with (Some {| file_name := Some "/a/b/file.txt" |}) None)
                  [Main; Worker])
               {| file_name := Some "/a/b/file.txt" |} "/a/" "b"%char "file.txt"
               eq_refl eq_refl ltac:(discriminate) eq_refl).
Defined.

(** C8.  The settings command sends the window one [open_file] command, for
    the path [${packages}/MurmurAI/MurmurAI.sublime-settings], and calls
    [subprocess.run] not at all; panels and status bar stay as they are. *)
Theorem settings_command_opens_one_file (ed : Editor) :
  commands (window (ui (MurmurOpenSettingsCommand_run ed))) =
    commands (window (ui ed)) ++
    [cmd_open_file "${packages}/MurmurAI/MurmurAI.sublime-settings"] ∧
  spawned (MurmurOpenSettingsCommand_run ed) = spawned ed ∧
  panels (window (ui (MurmurOpenSettingsCommand_run ed))) = panels (window (ui ed)) ∧
  status (ui (MurmurOpenSettingsCommand_run ed)) = status (ui ed).
Proof. done. Qed.



(** C2.  When [subprocess.run] raises [FileNotFoundError], the panel
    receives the installation instructions after the echoed command line,
    the status bar shows [Murmur: CLI not found], no status message holds
    [complete] or [failed], and no exception reaches the host. *)
Theorem executable_not_found_is_reported (c : MurCommand) (msg : string) (ed : Editor)
    (sched : list Turn) :
  let ed' := execute sched (command_run c (Raises (FileNotFoundError msg)) ed) in
  let shown := ["Murmur: " +:+ command_status c +:+ "..."; "Murmur: CLI not found"] in
  text_of murmur (window (ui ed')) =
    echo_line (command_args c) +:+ nl +:+ not_found_text +:+ nl ∧
  contains not_found_text (text_of murmur (window (ui ed'))) = true ∧
  not_found_text =
    "Error: 'mur' command not found." +:+ nl +:+
    "Please install murmur-ai CLI and ensure it's in your PATH." +:+ nl +:+
    "See: https://github.com/anthropics/murmur-ai" ∧
  status (ui ed') = status (ui ed) ++ shown ∧
  contains "not found" "Murmur: CLI not found" = true ∧
  Forall (fun m => contains "complete" m = false ∧ contains "failed" m = false) shown ∧
  uncaught (ui ed') = uncaught (ui ed).
Proof.
  cbv zeta. rewrite !command_run_eq.
  destruct (not_found_observed (command_args c) (command_status c) true msg ed sched)
    as (S & U & T).
  cbv zeta in S, U, T. rewrite S, U, T, str_app_nil_l.
  repeat split.
  - rewrite <- !str_app_assoc. rewrite str_app_assoc. apply contains_app.
  - destruct c; repeat constructor.
Qed.

(** C4, as the specification words it: the output shown is the captured
    [stdout] with the captured [stderr] right after it, and the panel receives
    it whenever it is not empty. *)
Definition concatenated_output (r : CompletedProcess) : string :=
  stdout r +:+ stderr r.

Definition claimed_panel_text (a : list string) (r : CompletedProcess) : string :=
  echo_line a +:+ nl +:+
  (if truthy (concatenated_output r) then concatenated_output r +:+ nl else "").

(** C4 fails as worded.  An output of one blank is not empty, yet the panel
    does not receive it; and [stdout] and [stderr] are shown with a line
    break between them. *)
Lemma blank_output_is_not_appended :
  let blank := {| returncode := 1; stdout := " "; stderr := "" |} in
  let both := {| returncode := 1; stdout := "out"; stderr := "bad" |} in
  let text_after r :=
    text_of murmur
      (window (ui (execute [] (command_run MurmurStatsCommand (Returns r)
                                 (editor_with None (Some "stale")))))) in
  truthy (concatenated_output blank) = true ∧
  text_after blank = echo_line ["stats"] +:+ nl ∧
  text_after blank ≠ claimed_panel_text ["stats"] blank ∧
  text_after both = echo_line ["stats"] +:+ nl +:+ "out" +:+ nl +:+ "bad" +:+ nl ∧
  text_after both ≠ claimed_panel_text ["stats"] both.
Proof. vm_compute. repeat split; discriminate. Qed.

(** C4, amended.  The output shown is the captured [stdout], followed, when
    [stderr] is not empty, by a line break and the captured [stderr].  The
    panel receives it exactly when it has a character that is not
    whitespace; so when [stderr] has such a character the panel contains the
    text of [stderr], whatever the exit code. *)
Theorem output_is_shown_unless_blank (c : MurCommand) (r : CompletedProcess) (ed : Editor)
    (sched : list Turn) :
  let ed' := execute sched (command_run c (Returns r) ed) in
  combined_output r = stdout r +:+ (if truthy (stderr r) then nl +:+ stderr r else "") ∧
  text_of murmur (window (ui ed')) =
    echo_line (command_args c) +:+ nl +:+
    (if has_nonspace (combined_output r) then combined_output r +:+ nl else "") ∧
  (has_nonspace (stderr r) = true →
     contains (stderr r) (text_of murmur (window (ui ed'))) = true).
Proof.
  cbv zeta. rewrite command_run_eq.
  destruct (returns_observed (command_args c) (command_status c) true r ed sched)
    as (_ & _ & T).
  cbv zeta in T. rewrite T, str_app_nil_l, truthy_strip. clear T.
  split; [|split; [done|]].
  - unfold combined_output. destruct (truthy (stderr r)); by rewrite ?str_app_nil_r.
  - intros H. unfold combined_output. rewrite (has_nonspace_truthy _ H).
    rewrite !has_nonspace_app, H, !orb_true_r.
    do 2 apply contains_skip. rewrite !str_app_assoc.
    do 2 apply contains_skip. apply contains_here.
Qed.

Lemma output_is_shown_unless_blank_witness :
  contains "bad"
    (text_of murmur
       (window (ui (execute [Worker; Main]
                      (command_run MurmurSyncCommand
                         (Returns {| returncode := 1; stdout := ""; stderr := "bad" |})
                         (editor_with None (Some "stale"))))))) = true.
Proof.
  exact (proj2 (proj2 (output_is_shown_unless_blank MurmurSyncCommand
                         {| returncode := 1; stdout := ""; stderr := "bad" |}
                         (editor_with None (Some "stale")) [Worker; Main]))
               eq_refl).
Defined.

(** C9.  [get_output_panel] hands back the window's panel of that name when
    there is one, with its text, and creates a panel only when there is
    none.  Every invocation of a command, whatever the outcome and the
    schedule, addresses the panel [murmur] alone: the other panels stay as
    they are, and the panel [murmur] is created once if the window had none
    and not at all if it had one. *)
Theorem panel_is_created_once_and_reused :
  (∀ name w p, panels w !! name = Some p →
     (get_output_panel name w).1 = name ∧
     created (get_output_panel name w).2 = created w ∧
     ∃ p', panels (get_output_panel name w).2 !! name = Some p' ∧
           text p' = text p ∧ sel p' = sel p) ∧
  (∀ name w, panels w !! name = None →
     (get_output_panel name w).1 = name ∧
     created (get_output_panel name w).2 = created w ++ [name] ∧
     panels (get_output_panel name w).2 !! name = Some (with_settings new_panel)) ∧
  (∀ name n w, n ≠ name → panels (get_output_panel name w).2 !! n = panels w !! n) ∧
  (∀ c oc ed sched,
     addressed (window (ui ed)) (window (ui (execute sched (command_run c oc ed))))).
Proof.
  repeat split.
  - apply get_output_panel_fst.
  - by rewrite get_output_panel_created, H, app_nil_r.
  - rewrite get_output_panel_lookup, H. by eexists.
  - apply get_output_panel_fst.
  - by rewrite get_output_panel_created, H.
  - by rewrite get_output_panel_lookup, H.
  - intros name n w Hn. by apply get_output_panel_other.
  - rewrite command_run_eq.
    by destruct (run_mur_command_addressed (command_args c) (command_status c)
                   true oc ed sched) as (A & _).
  - rewrite command_run_eq.
    by destruct (run_mur_command_addressed (command_args c) (command_status c)
                   true oc ed sched) as (_ & A & _).
  - rewrite command_run_eq.
    by destruct (run_mur_command_addressed (command_args c) (command_status c)
                   true oc ed sched) as (_ & _ & A & _).
  - rewrite command_run_eq.
    by destruct (run_mur_command_addressed (command_args c) (command_status c)
                   true oc ed sched) as (_ & _ & _ & A).
Qed.

Lemma panel_is_created_once_and_reused_witness :
  let w := window (ui (editor_with None (Some "kept"))) in
  created (get_output_panel murmur w).2 = [] ∧
  created (get_output_panel "other" w).2 = ["other"] ∧
  panels (get_output_panel "other" w).2 !! murmur = panels w !! murmur.
Proof.
  pose proof panel_is_created_once_and_reused as (Hsome & Hnone & Hother & _).
  intros w. split; [|split].
  - exact (proj1 (proj2 (Hsome murmur (window (ui (editor_with None (Some "kept"))))
                           {| text := "kept"; sel := (0, 0)%nat; settings := ∅ |}
                           eq_refl))).
  - exact (proj1 (proj2 (Hnone "other" (window (ui (editor_with None (Some "kept"))))
                           eq_refl))).
  - apply Hother. discriminate.
Defined.

(** C6.  A command clears the panel before it writes to it.  At every moment
    of every run the panel holds the text it held before while no callback
    has been called, nothing once the first callback (the clear) has been
    called, the echoed command line once the second has been called, and
    from then on the echoed command line alone or followed by what the
    handler of the outcome writes: the old text is never part of it. *)
Theorem clear_empties_panel_before_output (c : MurCommand) (oc : Outcome) (ed : Editor)
    (sched : list Turn) :
  let old := text_of murmur (window (ui ed)) in
  let fresh := echo_line (command_args c) +:+ nl in
  let m := foldl step (command_run c oc ed) sched in
  (∃ k, pending m = drop k (pending (command_run c oc ed)) ∧
        text_of murmur (window (ui (editor m))) ∈
          match k with
          | 0%nat => [old]
          | 1%nat => [""]
          | 2%nat => [fresh]
          | _ => [fresh; echo_line (command_args c) +:+ nl +:+ handler_text oc]
          end) ∧
  text_of murmur (window (ui (execute sched (command_run c oc ed)))) ∈
    [fresh; echo_line (command_args c) +:+ nl +:+ handler_text oc].
Proof.
  cbv zeta. rewrite !command_run_eq. split.
  - exact (text_at_every_moment (command_args c) (command_status c) oc ed sched).
  - apply text_at_the_end.
Qed.

(** C10 fails as worded: the clear and the echo are handed to the UI thread
    before [subprocess.run] is called, not performed before it.  When the
    thread has called [subprocess.run], both can still be waiting in the
    queue, and the panel still holds its old text.  And after an exception
    other than [FileNotFoundError], with the thread ending first, no error
    text follows the echoed command line. *)
Lemma spawn_is_attempted_before_clear :
  let ed := editor_with None (Some "stale") in
  let m := foldl step (command_run MurmurSyncCommand (Raises (FileNotFoundError "mur")) ed)
                 [Worker; Worker; Worker] in
  let ed' := execute [] (command_run MurmurSyncCommand (Raises (OtherError "denied")) ed) in
  (spawned (editor m) = [{| argv := ["mur"; "sync"; "all"]; cwd := None |}] ∧
   queue m = [lambda_clear; lambda_echo] ∧
   text_of murmur (window (ui (editor m))) = "stale") ∧
  text_of murmur (window (ui ed')) = echo_line ["sync"; "all"] +:+ nl.
Proof. vm_compute. done. Qed.

(** C10, amended.  A failure is not atomic with respect to the panel.  In
    every failing invocation the thread queues the clear and the echo of
    the command line before it calls [subprocess.run], and the handler
    queues neither again; the UI thread calls them first, so at the end the
    old text is gone and the panel starts with the echoed command line, with
    nothing after it but what the handler writes.  For
    [FileNotFoundError] that is the installation instructions. *)
Theorem failure_keeps_clear_and_echo (c : MurCommand) (x : Exception) (ed : Editor)
    (sched : list Turn) :
  let fresh := echo_line (command_args c) +:+ nl in
  let m0 := command_run c (Raises x) ed in
  (∃ call handler,
     worker m0 = [set_timeout lambda_clear; set_timeout lambda_echo;
                  subprocess_run call] ++ handler ∧
     (lambda_clear ∉ posts handler) ∧ (lambda_echo ∉ posts handler)) ∧
  text_of murmur (window (ui (execute sched m0))) ∈
    [fresh; echo_line (command_args c) +:+ nl +:+ handler_text (Raises x)] ∧
  match x with
  | FileNotFoundError _ =>
      text_of murmur (window (ui (execute sched m0))) =
        echo_line (command_args c) +:+ nl +:+ not_found_text +:+ nl
  | OtherError _ => True
  end.
Proof.
  cbv zeta. rewrite !command_run_eq. split; [|split].
  - unfold run_mur_command, run. cbn [worker app].
    destruct x as [msg|msg]; do 2 eexists; (split; [reflexivity|]);
      cbn [posts omap]; split; intros H;
      repeat (apply elem_of_cons in H as [H|H]; [discriminate H|]);
      by apply not_elem_of_nil in H.
  - apply text_at_the_end.
  - destruct x as [msg|msg]; [|done].
    destruct (not_found_observed (command_args c) (command_status c) true msg ed sched)
      as (_ & _ & T).
    cbv zeta in T. by rewrite T, str_app_nil_l.
Qed.

(** C3 fails on the code.  [lambda: show_output(window, f"Error: {str(e)}")]
    reads [e] when it is called, and Python unbinds [e] when the handler is
    left.  When the thread has ended before the UI thread calls the
    callbacks, the call raises [NameError] into the host and the panel
    receives no error text; only the status message is shown. *)
Theorem exception_text_is_lost (c : MurCommand) (msg : string) (ed : Editor) :
  let ed' := execute [] (command_run c (Raises (OtherError msg)) ed) in
  text_of murmur (window (ui ed')) = echo_line (command_args c) +:+ nl ∧
  contains ("Error: " +:+ msg) (text_of murmur (window (ui ed'))) = false ∧
  uncaught (ui ed') = uncaught (ui ed) ++ ["NameError"] ∧
  status (ui ed') =
    status (ui ed) ++ ["Murmur: " +:+ command_status c +:+ "..."; "Murmur: Error occurred"].
Proof.
  cbv zeta. rewrite command_run_eq, execute_nil.
  destruct (settled_run_mur_command (command_args c) (command_status c) true
              (Raises (OtherError msg)) ed) as (S & U & T).
  rewrite posts_run, final_frame_run in S, U, T. cbv zeta in S, U, T.
  rewrite S, U, T. cbn [app map concat said raised written foldl e].
  rewrite str_app_nil_l. repeat split. destruct c; vm_compute; reflexivity.
Qed.

(** The same invocation when the UI thread calls the callback while the
    handler is still running: [e] is bound and the panel receives the text. *)
Example exception_text_shown_when_called_early :
  let ed' := execute [Worker; Worker; Worker; Worker; Worker; Main; Main; Main]
               (command_run MurmurSyncCommand (Raises (OtherError "denied"))
                  (editor_with None (Some "stale"))) in
  text_of murmur (window (ui ed')) =
    echo_line ["sync"; "all"] +:+ nl +:+ "Error: denied" +:+ nl ∧
  uncaught (ui ed') = [].
Proof. vm_compute. done. Qed.

End Properties.

(** ** Further properties of the panel functions and of an invocation *)

Section Further.
Import Py Host Plugin.

Lemma window_ext (w1 w2 : Window) :
  panels w1 = panels w2 → created w1 = created w2 →
  active_view w1 = active_view w2 → commands w1 = commands w2 → w1 = w2.
Proof. destruct w1, w2. simpl. congruence. Qed.

Lemma with_settings_idem (p : Panel) : with_settings (with_settings p) = with_settings p.
Proof.
  unfold with_settings. simpl. f_equal. apply map_eq. intros k.
  rewrite !lookup_insert. by repeat case_decide.
Qed.

(** The window commands a callback sends. *)
Definition sent (l : Lambda) (fr : Frame) : list WindowCommand :=
  match l with
  | lambda_echo => [cmd_show_panel "output.murmur"]
  | lambda_output =>
      match output fr with Some _ => [cmd_show_panel "output.murmur"] | None => [] end
  | lambda_error_msg =>
      match error_msg fr with Some _ => [cmd_show_panel "output.murmur"] | None => [] end
  | lambda_exception =>
      match e fr with Some _ => [cmd_show_panel "output.murmur"] | None => [] end
  | _ => []
  end.

Lemma dispatch_commands (l : Lambda) (fr : Frame) (u : UI) :
  commands (window (dispatch l fr u)) = commands (window u) ++ sent l fr.
Proof.
  pose proof (fun c => show_output_frame c murmur (window u)) as Hs.
  pose proof (clear_output_frame murmur (window u)) as (_ & _ & _ & _ & Hc).
  unfold dispatch, call, sent.
  destruct l; try destruct (output fr); try destruct (error_msg fr);
    try destruct (e fr); cbn [window with_window status_message report];
    rewrite ?app_nil_r; try done.
  all: by match goal with
          | |- context [show_output ?c murmur _] =>
              destruct (Hs c) as (_ & _ & _ & _ & ->)
          end.
Qed.

Lemma foldl_dispatch_commands (ls : list Lambda) (fr : Frame) (u : UI) :
  commands (window (foldl (fun u l => dispatch l fr u) u ls)) =
  commands (window u) ++ concat (map (fun l => sent l fr) ls).
Proof.
  revert u. induction ls as [|l ls IH]; intros u; simpl; [by rewrite app_nil_r|].
  by rewrite IH, dispatch_commands, <- app_assoc.
Qed.

(** A property of the window that both panel functions establish holds at
    the end of every invocation: the echo is always called, and no callback
    after it undoes what a panel function did. *)
Lemma established_at_the_end (P : Window → Prop) (a : list string) (s : string)
    (clear : bool) (oc : Outcome) (ed : Editor) (sched : list Turn) :
  (∀ content w, P (show_output content murmur w)) →
  (∀ w, P (clear_output murmur w)) →
  P (window (ui (execute sched (run_mur_command a s clear oc ed)))).
Proof.
  intros Hshow Hclear.
  pose (Q := fun (ls : list Lambda) (u : UI) => lambda_echo ∉ ls → P (window u)).
  assert (Q [] (ui (execute sched (run_mur_command a s clear oc ed)))) as H.
  { apply (fifo_execute (fun _ => True) Q).
    - intros l ls fr u _ H Hls. destruct (decide (l = lambda_echo)) as [->|Hl].
      + unfold dispatch, call. cbn [window with_window]. apply Hshow.
      + destruct (dispatch_window l fr u) as [->| [->|[c ->]]]; [|done..].
        apply H. rewrite elem_of_cons. intros [E|E]; [congruence|done].
    - split; [done|split; [by apply Forall_forall|]].
      intros Hn. exfalso. apply Hn. unfold pending, run_mur_command.
      cbn [queue worker app]. rewrite posts_run.
      apply elem_of_app. right. apply list_elem_of_here. }
  apply H. apply not_elem_of_nil.
Qed.

(** The panel of that name exists with the three settings of
    [get_output_panel]. *)
Definition configured (name : string) (w : Window) : Prop :=
  ∃ p, panels w !! name = Some p ∧
       settings p !! "word_wrap" = Some true ∧
       settings p !! "line_numbers" = Some false ∧
       settings p !! "gutter" = Some false.

Lemma with_settings_lookup (p : Panel) :
  settings (with_settings p) !! "word_wrap" = Some true ∧
  settings (with_settings p) !! "line_numbers" = Some false ∧
  settings (with_settings p) !! "gutter" = Some false.
Proof. unfold with_settings. simpl. rewrite !lookup_insert. by repeat case_decide. Qed.

Lemma show_output_configured (content name : string) (w : Window) :
  configured name (show_output content name w).
Proof.
  unfold show_output, configured.
  pose proof (get_output_panel_fst name w) as H1.
  pose proof (get_output_panel_lookup name w) as H2.
  destruct (get_output_panel name w) as [p w']. cbn [fst snd] in *. subst p.
  unfold window_run_command. cbn [panels].
  rewrite lookup_view_run_command, H2. case_decide; [|done].
  eexists. split; [reflexivity|]. apply with_settings_lookup.
Qed.

Lemma clear_output_configured (name : string) (w : Window) :
  configured name (clear_output name w).
Proof.
  unfold clear_output, configured.
  pose proof (get_output_panel_fst name w) as H1.
  pose proof (get_output_panel_lookup name w) as H2.
  destruct (get_output_panel name w) as [p w']. cbn [fst snd] in *. subst p.
  rewrite !lookup_view_run_command, H2. case_decide; [|done].
  eexists. split; [reflexivity|]. apply with_settings_lookup.
Qed.

(** *** The status bar under every schedule *)

Lemma said_status_msg (l : Lambda) (fr fr' : Frame) :
  status_msg fr = status_msg fr' → said l fr = said l fr'.
Proof. intros H. destruct l; cbn [said]; by rewrite ?H. Qed.

Lemma status_execute (sched : list Turn) (m : Machine) :
  status (ui (execute sched m)) =
  status (ui (editor m)) ++ concat (map (fun l => said l (frame m)) (pending m)).
Proof.
  set (target := status (ui (editor m)) ++
                 concat (map (fun l => said l (frame m)) (pending m))).
  pose (F := fun fr : Frame => status_msg fr = status_msg (frame m)).
  pose (Q := fun (ls : list Lambda) (u : UI) =>
               status u ++ concat (map (fun l => said l (frame m)) ls) = target).
  assert (Q [] (ui (execute sched m))) as H.
  { apply (fifo_execute F Q).
    - intros l ls fr u HF H. unfold Q in *. rewrite dispatch_status.
      rewrite (said_status_msg l fr (frame m) HF), <- app_assoc. exact H.
    - split; [done|split; [|done]].
      apply Forall_forall. intros i _ fr HF. unfold F in *. by destruct i. }
  unfold Q in H. cbn [map concat] in H. by rewrite app_nil_r in H.
Qed.

(** *** An exception other than [FileNotFoundError], at every moment *)

(** The panel text and the exceptions that reached the host once [k]
    callbacks have been called. *)
Definition other_after (a : list string) (msg old : string) (unc : list string)
    (k : nat) (t : string) (raised_so_far : list string) : Prop :=
  match k with
  | 0%nat => t = old ∧ raised_so_far = unc
  | 1%nat => t = "" ∧ raised_so_far = unc
  | 2%nat => t = echo_line a +:+ nl ∧ raised_so_far = unc
  | _ => (t = echo_line a +:+ nl +:+ ("Error: " +:+ msg) +:+ nl ∧ raised_so_far = unc) ∨
         (t = echo_line a +:+ nl ∧ raised_so_far = unc ++ ["NameError"])
  end.

Definition other_moment (a : list string) (s msg : string) (ed : Editor)
    (ls : list Lambda) (u : UI) : Prop :=
  ∃ k, ls = drop k [lambda_clear; lambda_echo; lambda_exception; lambda_error_occurred] ∧
       other_after a msg (text_of murmur (window (ui ed))) (uncaught (ui ed)) k
                   (text_of murmur (window u)) (uncaught u).

Lemma other_moment_dispatch (a : list string) (s msg : string) (ed : Editor)
    (l : Lambda) (ls : list Lambda) (fr : Frame) (u : UI) :
  bound_as a (Raises (OtherError msg)) fr →
  other_moment a s msg ed (l :: ls) u → other_moment a s msg ed ls (dispatch l fr u).
Proof.
  intros (Ha & Ho & Hm & He) (k & Hk & Ht). exists (S k). split.
  { symmetry. by eapply drop_cons_next. }
  rewrite dispatch_text, dispatch_uncaught. revert Ht.
  generalize (text_of murmur (window u)) (uncaught u). intros t unc Ht.
  destruct k as [|[|[|[|k]]]]; cbn [drop] in Hk;
    try (destruct k; discriminate Hk); simplify_eq;
    cbn [other_after written raised] in *.
  - destruct Ht as [-> ->]. by rewrite app_nil_r.
  - destruct Ht as [-> ->]. by rewrite app_nil_r, str_app_nil_l.
  - destruct Ht as [-> ->]. destruct (e fr) as [x|] eqn:E; [left|by right].
    destruct (He x eq_refl) as ([= <-] & _). cbn [str].
    by rewrite app_nil_r, str_app_assoc.
  - by rewrite app_nil_r.
Qed.

Lemma other_moment_start (a : list string) (s msg : string) (ed : Editor) :
  fifo_inv (bound_as a (Raises (OtherError msg))) (other_moment a s msg ed)
           (run_mur_command a s true (Raises (OtherError msg)) ed).
Proof.
  split; [|split].
  - by repeat split.
  - apply bound_as_run.
  - exists 0%nat. split; [|done]. unfold pending, run_mur_command.
    cbn [queue worker app]. by rewrite posts_run.
Qed.

(** *** The properties *)

(** X1.  [get_output_panel] is idempotent: called again on the window it
    returned, it returns the same panel and leaves the window as it is; no
    second panel is created and no setting changes. *)
Theorem get_output_panel_idempotent (name : string) (w : Window) :
  get_output_panel name (get_output_panel name w).2 = get_output_panel name w.
Proof.
  pose proof (get_output_panel_lookup name w) as Hl.
  apply injective_projections; [by rewrite !get_output_panel_fst|].
  destruct (get_output_panel_rest name (get_output_panel name w).2) as [Hv Hc].
  apply window_ext; [|by rewrite get_output_panel_created, Hl, app_nil_r|done..].
  apply map_eq. intros k. destruct (decide (k = name)) as [->|Hk].
  - rewrite get_output_panel_lookup, Hl. simpl. by rewrite with_settings_idem.
  - by rewrite get_output_panel_other.
Qed.

(** X2.  The panel [get_output_panel] returns has [word_wrap] on and
    [line_numbers] and [gutter] off; its text, its selection and every other
    setting are those of the panel the window had (of a new, empty panel
    when it had none). *)
Theorem get_output_panel_settings (name : string) (w : Window) :
  ∃ p, panels (get_output_panel name w).2 !! name = Some p ∧
       text p = text (default new_panel (panels w !! name)) ∧
       sel p = sel (default new_panel (panels w !! name)) ∧
       settings p !! "word_wrap" = Some true ∧
       settings p !! "line_numbers" = Some false ∧
       settings p !! "gutter" = Some false ∧
       (∀ k, k ≠ "word_wrap" → k ≠ "line_numbers" → k ≠ "gutter" →
          settings p !! k = settings (default new_panel (panels w !! name)) !! k).
Proof.
  eexists. split; [apply get_output_panel_lookup|].
  destruct (with_settings_lookup (default new_panel (panels w !! name))) as (A & B & C).
  repeat split; try done.
  intros k H1 H2 H3. unfold with_settings. simpl. by rewrite !lookup_insert_ne.
Qed.

Lemma get_output_panel_settings_witness :
  ∃ p, panels (get_output_panel murmur
                 {| panels := {[ murmur := {| text := "kept"; sel := (1, 2)%nat;
                                              settings := {[ "rulers" := true ]} |} ]};
                    created := []; active_view := None; commands := [] |}).2
         !! murmur = Some p ∧
       settings p !! "rulers" = Some true.
Proof.
  destruct (get_output_panel_settings murmur
              {| panels := {[ murmur := {| text := "kept"; sel := (1, 2)%nat;
                                           settings := {[ "rulers" := true ]} |} ]};
                 created := []; active_view := None; commands := [] |})
    as (p & Hp & _ & _ & _ & _ & _ & Hk).
  exists p. split; [exact Hp|].
  exact (Hk "rulers" ltac:(discriminate) ltac:(discriminate) ltac:(discriminate)).
Defined.

(** X3.  After every invocation of a command, whatever the outcome and the
    schedule, the panel [murmur] exists with [word_wrap] on and
    [line_numbers] and [gutter] off. *)
Theorem panel_is_configured_after_invocation (c : MurCommand) (oc : Outcome) (ed : Editor)
    (sched : list Turn) :
  ∃ p, panels (window (ui (execute sched (command_run c oc ed)))) !! murmur = Some p ∧
       settings p !! "word_wrap" = Some true ∧
       settings p !! "line_numbers" = Some false ∧
       settings p !! "gutter" = Some false.
Proof.
  rewrite command_run_eq.
  apply (established_at_the_end (configured murmur)).
  - intros content w. apply show_output_configured.
  - intros w. apply clear_output_configured.
Qed.

(** X4.  [show_output] appends the content and a line break to what the
    panel holds (to nothing when the window has no such panel yet), and the
    last command it sends the window is [show_panel] for that panel.  Two
    calls leave both contents, in the order of the calls. *)
Theorem show_output_appends_line (content name : string) (w : Window) :
  text_of name (show_output content name w) = text_of name w +:+ content +:+ nl ∧
  last (commands (show_output content name w)) =
    Some (cmd_show_panel ("output." +:+ name)) ∧
  ∀ more, text_of name (show_output more name (show_output content name w)) =
          text_of name w +:+ content +:+ nl +:+ more +:+ nl.
Proof.
  destruct (show_output_frame content name w) as (_ & _ & _ & _ & Hc).
  split; [apply show_output_text|split].
  - rewrite Hc. apply last_snoc.
  - intros more. by rewrite !show_output_text, !str_app_assoc.
Qed.

(** X5.  [clear_output] leaves the panel empty, whatever text it held and
    wherever its selection was, sends the window no command (the panel is
    not shown), and a [show_output] after it leaves the panel holding that
    content alone. *)
Theorem clear_output_empties (name : string) (w : Window) :
  text_of name (clear_output name w) = "" ∧
  commands (clear_output name w) = commands w ∧
  ∀ content, text_of name (show_output content name (clear_output name w)) =
             content +:+ nl.
Proof.
  destruct (clear_output_frame name w) as (_ & _ & _ & _ & Hc).
  split; [apply clear_output_text|split; [exact Hc|]].
  intros content. by rewrite show_output_text, clear_output_text, str_app_nil_l.
Qed.

(** X6.  An invocation sends the window [show_panel] for [output.murmur] once
    for each text it writes and nothing else: twice when [subprocess.run]
    returns output that is not blank or raises [FileNotFoundError], once when
    the output is blank; under every schedule. *)
Theorem invocation_shows_panel (c : MurCommand) (ed : Editor) (sched : list Turn) :
  (∀ r, commands (window (ui (execute sched (command_run c (Returns r) ed)))) =
        commands (window (ui ed)) ++
        replicate (if truthy (strip (combined_output r)) then 2 else 1)
                  (cmd_show_panel "output.murmur")) ∧
  (∀ msg, commands (window (ui (execute sched
                                  (command_run c (Raises (FileNotFoundError msg)) ed)))) =
          commands (window (ui ed)) ++ replicate 2 (cmd_show_panel "output.murmur")).
Proof.
  rewrite command_run_eq. split.
  - intros r. rewrite schedule_independent by apply safe_run_returns.
    unfold settled, pending, run_mur_command. cbn [editor worker frame queue ui app].
    rewrite foldl_dispatch_commands, posts_run, final_frame_run.
    cbn [status_message window].
    destruct (truthy (strip (combined_output r))), (returncode r =? 0); reflexivity.
  - intros msg. rewrite schedule_independent by apply safe_run_not_found.
    unfold settled, pending, run_mur_command. cbn [editor worker frame queue ui app].
    rewrite foldl_dispatch_commands, posts_run, final_frame_run. reflexivity.
Qed.

(** X7.  Every invocation shows exactly two status messages, under every
    schedule: first [Murmur: <status_msg>...], then the one message of its
    outcome: [... complete] or [... failed] by the exit code,
    [Murmur: CLI not found] for [FileNotFoundError], and
    [Murmur: Error occurred] for any other exception. *)
Theorem status_log_of_invocation (c : MurCommand) (oc : Outcome) (ed : Editor)
    (sched : list Turn) :
  status (ui (execute sched (command_run c oc ed))) =
  status (ui ed) ++
  ["Murmur: " +:+ command_status c +:+ "...";
   match oc with
   | Returns r =>
       if returncode r =? 0 then "Murmur: " +:+ command_status c +:+ " complete"
       else "Murmur: " +:+ command_status c +:+ " failed"
   | Raises (FileNotFoundError _) => "Murmur: CLI not found"
   | Raises (OtherError _) => "Murmur: Error occurred"
   end].
Proof.
  rewrite command_run_eq, status_execute. unfold pending, run_mur_command.
  cbn [editor worker frame queue ui app status status_message]. rewrite posts_run.
  rewrite <- app_assoc. f_equal.
  destruct oc as [r|[msg|msg]];
    [destruct (truthy (strip (combined_output r))), (returncode r =? 0)|..];
    reflexivity.
Qed.

(** X8.  With [clear=False], [run_mur_command] keeps what the panel holds:
    when [subprocess.run] returns or raises [FileNotFoundError], the panel
    ends with its old text followed by the echoed command line and the
    output or the instructions, under every schedule. *)
Theorem without_clear_output_is_appended (a : list string) (s : string) (ed : Editor)
    (sched : list Turn) :
  (∀ r, text_of murmur
          (window (ui (execute sched (run_mur_command a s false (Returns r) ed)))) =
        text_of murmur (window (ui ed)) +:+ echo_line a +:+ nl +:+
        (if truthy (strip (combined_output r)) then combined_output r +:+ nl else "")) ∧
  (∀ msg, text_of murmur
            (window (ui (execute sched
                           (run_mur_command a s false (Raises (FileNotFoundError msg)) ed)))) =
          text_of murmur (window (ui ed)) +:+ echo_line a +:+ nl +:+ not_found_text +:+ nl).
Proof.
  split.
  - intros r. by destruct (returns_observed a s false r ed sched) as (_ & _ & T).
  - intros msg. by destruct (not_found_observed a s false msg ed sched) as (_ & _ & T).
Qed.

(** X9.  When [subprocess.run] returns or raises [FileNotFoundError], the
    whole state an invocation ends in (every panel, the window commands,
    the status bar, the exceptions that reached the host, the calls of
    [subprocess.run]) is the same under every two schedules. *)
Theorem end_state_independent_of_schedule (c : MurCommand) (ed : Editor)
    (sched1 sched2 : list Turn) :
  (∀ r, execute sched1 (command_run c (Returns r) ed) =
        execute sched2 (command_run c (Returns r) ed)) ∧
  (∀ msg, execute sched1 (command_run c (Raises (FileNotFoundError msg)) ed) =
          execute sched2 (command_run c (Raises (FileNotFoundError msg)) ed)).
Proof.
  rewrite command_run_eq. split.
  - intros r. by rewrite !schedule_independent by apply safe_run_returns.
  - intros msg. by rewrite !schedule_independent by apply safe_run_not_found.
Qed.

(** X10.  An active view whose file name is the empty string counts as
    having no file: [subprocess.run] is called with [cwd=None]. *)
Theorem empty_file_name_gives_no_cwd (c : MurCommand) (oc : Outcome) (ed : Editor)
    (sched : list Turn) (v : View) :
  active_view (window (ui ed)) = Some v → file_name v = Some "" →
  spawned (execute sched (command_run c oc ed)) =
  spawned ed ++ [{| argv := "mur" :: command_args c; cwd := None |}].
Proof.
  intros Hv Hf. rewrite command_run_eq, spawned_run_mur_command.
  unfold working_directory. by rewrite Hv, Hf.
Qed.

Lemma empty_file_name_gives_no_cwd_witness :
  spawned (execute [Worker]
             (command_run MurmurPatternsCommand (Raises (OtherError "denied"))
                (editor_with (Some {| file_name := Some "" |}) None))) =
  [{| argv := ["mur"; "patterns"; "list"]; cwd := None |}].
Proof.
  exact (empty_file_name_gives_no_cwd MurmurPatternsCommand (Raises (OtherError "denied"))
           (editor_with (Some {| file_name := Some "" |}) None) [Worker]
           {| file_name := Some "" |} eq_refl eq_refl).
Defined.

(** X11.  After an exception other than [FileNotFoundError], under every
    schedule, exactly one of two things has happened: the panel holds the
    echoed command line followed by [Error: <message>] and no exception
    reached the host, or the panel holds the echoed command line alone and
    one [NameError] reached the host. *)
Theorem other_exception_text_or_name_error (c : MurCommand) (msg : string) (ed : Editor)
    (sched : list Turn) :
  let ed' := execute sched (command_run c (Raises (OtherError msg)) ed) in
  (text_of murmur (window (ui ed')) =
     echo_line (command_args c) +:+ nl +:+ ("Error: " +:+ msg) +:+ nl ∧
   uncaught (ui ed') = uncaught (ui ed)) ∨
  (text_of murmur (window (ui ed')) = echo_line (command_args c) +:+ nl ∧
   uncaught (ui ed') = uncaught (ui ed) ++ ["NameError"]).
Proof.
  cbv zeta. rewrite command_run_eq.
  destruct (fifo_execute _ _
              (other_moment_dispatch (command_args c) (command_status c) msg ed)
              sched _ (other_moment_start (command_args c) (command_status c) msg ed))
    as (k & Hk & H).
  destruct k as [|[|[|k]]]; [discriminate Hk..|]. exact H.
Qed.

End Further.
